(** * Chinook data speech agent

    A shallow embedding of the repository's own code:

    - [utils/sql_utils.py]: the name validator [customer_exists];
    - [agent.py]: the query executor [execute_sql], the name tool
      [update_user_name] and the gate [require_valid_name];
    - [fastapi_backend.py]: the thread registry, title generation, content
      extraction, [GET /threads] and [POST /chat].

    Conventions of the embedding.

    - A Python [str] is a Rocq [string]; the string methods are given on the
      ASCII range (letters [a-z], [A-Z], the ASCII whitespace characters), a
      character outside it is caseless and is not whitespace.
    - A call that may raise returns an [outcome]: [Returned v] or
      [Raised e].
    - A [datetime] is an integer number of clock ticks.
    - The language model, the agent framework, the data engine and the clock
      are outside the repository: they appear as arguments. *)

From Stdlib Require Import String Ascii List ZArith Lia Bool Arith.
From Stdlib Require Import Permutation Sorted DecimalString.
Import ListNotations.

Set Warnings "-register-all".

Local Open Scope string_scope.
Local Open Scope list_scope.
Local Open Scope nat_scope.

(* ================================================================== *)
(** * Python values, exceptions and string methods *)
(* ================================================================== *)

Module Py.

(** ** Exceptions *)

Inductive exn_class : Type :=
| ValueError
| SyntaxError
| IndexError
| KeyError
| OperationalError
| RuntimeError.

Record exn : Type := mkExn { exn_kind : exn_class; exn_text : string }.

Inductive outcome (A : Type) : Type :=
| Returned (a : A)
| Raised (e : exn).

Arguments Returned {A} a.
Arguments Raised {A} e.

Definition bind {A B : Type} (m : outcome A) (k : A -> outcome B) : outcome B :=
  match m with
  | Returned a => k a
  | Raised e => Raised e
  end.

Definition raises {A : Type} (m : outcome A) : bool :=
  match m with
  | Returned _ => false
  | Raised _ => true
  end.

(** ** Characters *)

Definition code (c : ascii) : nat := nat_of_ascii c.

Definition islower (c : ascii) : bool := (97 <=? code c) && (code c <=? 122).
Definition isupper (c : ascii) : bool := (65 <=? code c) && (code c <=? 90).

(** [str.isspace] on one ASCII character: tab, line feed, vertical tab,
    form feed, carriage return, the four separators 28..31 and the space. *)
Definition isspace (c : ascii) : bool :=
  ((9 <=? code c) && (code c <=? 13))
  || ((28 <=? code c) && (code c <=? 31))
  || (code c =? 32).

Definition upper_char (c : ascii) : ascii :=
  if islower c then ascii_of_nat (code c - 32) else c.

Definition lower_char (c : ascii) : ascii :=
  if isupper c then ascii_of_nat (code c + 32) else c.

(** ** String methods *)

Fixpoint upper (s : string) : string :=
  match s with
  | EmptyString => EmptyString
  | String c r => String (upper_char c) (upper r)
  end.

Fixpoint lower (s : string) : string :=
  match s with
  | EmptyString => EmptyString
  | String c r => String (lower_char c) (lower r)
  end.

(** [s.title()]: a letter that follows a letter is lowered, a letter that
    does not is raised, anything else is kept and ends the word. *)
Fixpoint title_from (previous_is_cased : bool) (s : string) : string :=
  match s with
  | EmptyString => EmptyString
  | String c r =>
      if islower c || isupper c then
        String (if previous_is_cased then lower_char c else upper_char c)
               (title_from true r)
      else String c (title_from false r)
  end.

Definition title (s : string) : string := title_from false s.

Fixpoint lstrip (s : string) : string :=
  match s with
  | EmptyString => EmptyString
  | String c r => if isspace c then lstrip r else s
  end.

Fixpoint rstrip (s : string) : string :=
  match s with
  | EmptyString => EmptyString
  | String c r =>
      match rstrip r with
      | EmptyString => if isspace c then EmptyString else String c EmptyString
      | r' => String c r'
      end
  end.

Definition strip (s : string) : string := rstrip (lstrip s).

(** [s[:n]] and [s[n:]] for [n >= 0]. *)
Fixpoint take (n : nat) (s : string) : string :=
  match n, s with
  | S k, String c r => String c (take k r)
  | _, _ => EmptyString
  end.

Fixpoint drop (n : nat) (s : string) : string :=
  match n, s with
  | S k, String _ r => drop k r
  | _, _ => s
  end.

(** [sub in s]. *)
Fixpoint contains (sub s : string) : bool :=
  String.prefix sub s
  || match s with
     | EmptyString => false
     | String _ r => contains sub r
     end.

(** Truth value of a [str]. *)
Definition truthy (s : string) : bool :=
  match s with
  | EmptyString => false
  | String _ _ => true
  end.

(** [" ".join(parts)]. *)
Fixpoint join (sep : string) (parts : list string) : string :=
  match parts with
  | [] => EmptyString
  | [p] => p
  | p :: rest => p ++ sep ++ join sep rest
  end.

(** ** Values of message contents *)

Inductive value : Type :=
| VNone
| VBool (b : bool)
| VInt (z : Z)
| VStr (s : string)
| VList (items : list value)
| VDict (entries : list (string * value)).

(** [key in d] and [d[key]] and [d.get(key)] on a dict with [str] keys. *)
Fixpoint dict_contains (key : string) (d : list (string * value)) : bool :=
  match d with
  | [] => false
  | (k, _) :: r => String.eqb k key || dict_contains key r
  end.

Fixpoint dict_getitem (key : string) (d : list (string * value)) : outcome value :=
  match d with
  | [] => Raised (mkExn KeyError key)
  | (k, v) :: r => if String.eqb k key then Returned v else dict_getitem key r
  end.

Definition dict_get (key : string) (d : list (string * value)) : value :=
  match dict_getitem key d with
  | Returned v => v
  | Raised _ => VNone
  end.

Definition value_is_str (v : value) (s : string) : bool :=
  match v with
  | VStr t => String.eqb t s
  | _ => false
  end.

End Py.

Notation "x <- m ;; k" := (Py.bind m (fun x => k))
  (at level 61, m at next level, right associativity).

(* ================================================================== *)
(** * utils/sql_utils.py: the dataset connection and the name validator *)
(* ================================================================== *)

Module Sql.
Import Py.

(** ** The dataset connection

    [SQLDatabase.run] executes one statement and hands back the fetched
    rows, or raises.  The connection is outside the repository; it is
    represented by what the validator and the executor can observe of it:
    the name columns of the [Customer] table, a connection failure if there
    is one, and its answer to every statement other than the validator's
    lookup. *)

Inductive cell : Type :=
| CInt (z : Z)
| CText (s : string)
| CNull.

Definition row : Type := list cell.

Record customer : Type := mkCustomer { FirstName : string; LastName : string }.

Record SQLDatabase : Type := mkDb {
  Customer : list customer;
  unavailable : option exn;
  run_other : string -> outcome (list row);
  usable_table_names : list string
}.

Definition nl : string := String (ascii_of_nat 10) EmptyString.
Definition quote : ascii := ascii_of_nat 39.

(** The three fixed pieces of the statement built by [customer_exists]. *)
Definition lookup_head : string :=
  nl ++ "    SELECT " ++ nl
     ++ "    EXISTS (" ++ nl
     ++ "        SELECT 1 " ++ nl
     ++ "        FROM Customer" ++ nl
     ++ "        WHERE FirstName = '".

Definition lookup_middle : string :=
  "' " ++ nl ++ "          AND LastName = '".

Definition lookup_tail : string :=
  "'" ++ nl ++ "    ) AS CustomerExists;" ++ nl ++ "    ".

(** The f-string of [customer_exists]: both names are interpolated as they
    are, after [title()]. *)
Definition lookup_statement (first_name last_name : string) : string :=
  lookup_head ++ title first_name ++ lookup_middle ++ title last_name ++ lookup_tail.

(** *** Reading the lookup statement back

    The data engine reads a quoted literal up to the next quote character.
    [parse_lookup] recognises exactly the texts
    [lookup_head ++ f ++ lookup_middle ++ l ++ lookup_tail] in which neither
    [f] nor [l] holds a quote. *)

Fixpoint strip_prefix (p s : string) : option string :=
  match p, s with
  | EmptyString, _ => Some s
  | String a p', String b s' => if Ascii.eqb a b then strip_prefix p' s' else None
  | String _ _, EmptyString => None
  end.

Fixpoint literal_body (s : string) : string * string :=
  match s with
  | EmptyString => (EmptyString, EmptyString)
  | String c r =>
      if Ascii.eqb c quote then (EmptyString, s)
      else let (body, rest) := literal_body r in (String c body, rest)
  end.

Definition parse_lookup (statement : string) : option (string * string) :=
  match strip_prefix lookup_head statement with
  | None => None
  | Some after_head =>
      let (f, r1) := literal_body after_head in
      match strip_prefix lookup_middle r1 with
      | None => None
      | Some after_middle =>
          let (l, r2) := literal_body after_middle in
          if String.eqb r2 lookup_tail then Some (f, l) else None
      end
  end.

Definition name_matches (f l : string) (c : customer) : bool :=
  String.eqb (FirstName c) f && String.eqb (LastName c) l.

(** [SELECT EXISTS (SELECT 1 FROM Customer WHERE ...)]: one row, one cell,
    1 when some record matches and 0 when none does. *)
Definition select_exists (db : SQLDatabase) (f l : string) : list row :=
  [[CInt (if existsb (name_matches f l) (Customer db) then 1 else 0)%Z]].

(** [db.run(statement)]. *)
Definition run (db : SQLDatabase) (statement : string) : outcome (list row) :=
  match unavailable db with
  | Some e => Raised e
  | None =>
      match parse_lookup statement with
      | Some (f, l) => Returned (select_exists db f l)
      | None => run_other db statement
      end
  end.

Definition get_usable_tables (db : SQLDatabase) : list string :=
  usable_table_names db.

(** ** [customer_exists]

    [db.run] renders the fetched rows with [str], and gives the empty text
    when nothing was fetched; [ast.literal_eval] reads the rendering back
    and rejects the empty text. *)
Definition literal_eval (fetched : list row) : outcome (list row) :=
  match fetched with
  | [] => Raised (mkExn SyntaxError "invalid syntax")
  | _ => Returned fetched
  end.

(** [res[0][0]]. *)
Definition first_cell (res : list row) : outcome cell :=
  match res with
  | [] => Raised (mkExn IndexError "list index out of range")
  | [] :: _ => Raised (mkExn IndexError "tuple index out of range")
  | (c :: _) :: _ => Returned c
  end.

(** [bool_result == 0]. *)
Definition equals_zero (c : cell) : bool :=
  match c with
  | CInt z => Z.eqb z 0
  | _ => false
  end.

Definition customer_exists (db : SQLDatabase) (first_name last_name : string)
  : outcome bool :=
  let query := lookup_statement first_name last_name in
  fetched <- run db query ;;
  res <- literal_eval fetched ;;
  bool_result <- first_cell res ;;
  Returned (if equals_zero bool_result then false else true).



End Sql.

(* ================================================================== *)
(** * agent.py: the executor, the name tool and the gate *)
(* ================================================================== *)

Module Agent.
Import Py Sql.

Record RuntimeContext : Type := mkContext {
  db : SQLDatabase;
  user_first_name : string;
  user_last_name : string;
  has_valid_name : bool
}.

(** ** [execute_sql] *)

(** What the tool hands back: the rows of the data engine, or a text. *)
Inductive tool_output : Type :=
| Rows (fetched : list row)
| Text (s : string).

(** [try: body  except Exception as e: handler(e)]. *)
Definition try_except {A : Type} (body : outcome A) (handler : exn -> outcome A)
  : outcome A :=
  match body with
  | Returned a => Returned a
  | Raised e => handler e
  end.

Definition execute_sql (context : RuntimeContext) (query : string)
  : outcome tool_output :=
  let db := db context in
  try_except
    (fetched <- run db query ;; Returned (Rows fetched))
    (fun e => Returned (Text ("Error: " ++ exn_text e))).

(** ** [update_user_name] *)

Record ToolMessage : Type := mkToolMessage {
  content : string;
  tool_call_id : string
}.

(** [Command(update={...})]: a key of the update is [Some] when the
    dictionary holds it. *)
Record Command : Type := mkCommand {
  update_user_first_name : option string;
  update_user_last_name : option string;
  update_has_valid_name : option bool;
  update_messages : list ToolMessage
}.

Definition update_user_name (sqldb : SQLDatabase)
           (new_first_name new_last_name : string) (call_id : string)
  : outcome Command :=
  valid <- customer_exists sqldb new_first_name new_last_name ;;
  if valid then
    Returned
      {| update_user_first_name := Some new_first_name;
         update_user_last_name := Some new_last_name;
         update_has_valid_name := Some true;
         update_messages :=
           [ {| content := "Updated user name to " ++ new_first_name ++ " "
                            ++ new_last_name ++ ".";
                tool_call_id := call_id |} ] |}
  else
    Returned
      {| update_user_first_name := None;
         update_user_last_name := None;
         update_has_valid_name := None;
         update_messages :=
           [ {| content := title new_first_name ++ " " ++ title new_last_name
                            ++ " is not a valid name in the database. Ask the user for a name that actually exists in the database. Dont call the user "
                            ++ new_first_name;
                tool_call_id := call_id |} ] |}.

(** ** [require_valid_name] *)

Inductive Tool : Type :=
| ExecuteSql
| UpdateUserName.

Definition tool_name (t : Tool) : string :=
  match t with
  | ExecuteSql => "execute_sql"
  | UpdateUserName => "update_user_name"
  end.

Record ModelRequest : Type := mkRequest {
  tools : list Tool;
  system_prompt : option string;
  runtime_context : RuntimeContext
}.

Definition name_collection_prompt : string :=
  "You must first collect the user's first and last name that exist in the Chinook Customer table. "
  ++ "Ask for their full name if missing or invalid. When a name is provided, call the update_user_name tool "
  ++ "with parsed first_name and last_name. Do not answer any other questions and do not call any other tools "
  ++ "until the name is validated. Be concise and polite.".

(** The hook receives the request and the rest of the chain, [handler].
    What [handler] does with the request (the other hook,
    [dynamic_system_prompt], the model call, and the order in which the
    framework composes them) is the framework's business. *)
Definition require_valid_name {A : Type} (request : ModelRequest)
           (handler : ModelRequest -> A) : A :=
  let runtime := runtime_context request in
  let request :=
    if negb (has_valid_name runtime) then
      {| tools := [UpdateUserName];
         system_prompt := Some name_collection_prompt;
         runtime_context := runtime_context request |}
    else request in
  handler request.

(** [create_agent(tools=[execute_sql, update_user_name], ...)]. *)
Definition agent_tools : list Tool := [ExecuteSql; UpdateUserName].

(** ** One invocation of the agent, as the hooks see it

    Inside one invocation the framework alternates model calls, each of
    which goes through [require_valid_name], and tool calls chosen by the
    model.  The sequence is the model's choice, so it is an argument.  A
    [Command] returned by [update_user_name] is merged into the runtime
    context key by key ("Update the user's name in the Runtime Context");
    an exception of a tool ends the invocation. *)

Inductive action : Type :=
| AskModel
| CallUpdateUserName (new_first_name new_last_name call_id : string)
| CallExecuteSql (query : string).

Definition or_keep {A : Type} (update : option A) (old : A) : A :=
  match update with
  | Some a => a
  | None => old
  end.

Definition merge (c : Command) (context : RuntimeContext) : RuntimeContext :=
  {| db := db context;
     user_first_name := or_keep (update_user_first_name c) (user_first_name context);
     user_last_name := or_keep (update_user_last_name c) (user_last_name context);
     has_valid_name := or_keep (update_has_valid_name c) (has_valid_name context) |}.

(** The request that reaches the rest of the chain. *)
Definition forwarded (request : ModelRequest) : ModelRequest :=
  require_valid_name request (fun r => r).

(** The requests forwarded to the model during one invocation, in order,
    and the context the invocation ends with. *)
Fixpoint invoke (sqldb : SQLDatabase) (prompt : option string)
         (context : RuntimeContext) (actions : list action)
  : list ModelRequest * RuntimeContext :=
  match actions with
  | [] => ([], context)
  | AskModel :: rest =>
      let seen := forwarded {| tools := agent_tools;
                               system_prompt := prompt;
                               runtime_context := context |} in
      let (later, final) := invoke sqldb prompt context rest in
      (seen :: later, final)
  | CallUpdateUserName f l call_id :: rest =>
      match update_user_name sqldb f l call_id with
      | Returned c => invoke sqldb prompt (merge c context) rest
      | Raised _ => ([], context)
      end
  | CallExecuteSql query :: rest =>
      match execute_sql context query with
      | Returned _ => invoke sqldb prompt context rest
      | Raised _ => ([], context)
      end
  end.

(** An update attempt passes validation when [customer_exists] says so. *)
Definition passes (sqldb : SQLDatabase) (a : action) : bool :=
  match a with
  | CallUpdateUserName f l _ =>
      match customer_exists sqldb f l with
      | Returned true => true
      | _ => false
      end
  | _ => false
  end.


(** The request of the name-collection phase. *)
Definition restricted (context : RuntimeContext) : ModelRequest :=
  {| tools := [UpdateUserName];
     system_prompt := Some name_collection_prompt;
     runtime_context := context |}.

End Agent.

(* ================================================================== *)
(** * fastapi_backend.py: registry, titles, content extraction, endpoints *)
(* ================================================================== *)

Module Backend.
Import Py Sql.

(** A [datetime]: clock ticks since [datetime.min]. *)
Definition datetime : Type := Z.
Definition datetime_min : datetime := 0%Z.

(** ** Messages of the framework *)

Inductive message_class : Type :=
| HumanMessage
| AIMessage
| ToolMessage
| SystemMessage.

(** One entry of [AIMessage.tool_calls]; a key the entry lacks is [None]. *)
Record ToolCall : Type := mkToolCall {
  call_id : option string;
  call_name : option string;
  call_args : option value
}.

Record BaseMessage : Type := mkMessage {
  msg_class : message_class;
  msg_content : value;
  msg_id : option string;
  msg_tool_calls : list ToolCall;
  msg_tool_call_id : string
}.

(** What [extract_message_content] is handed: any object, with or without
    a [content] attribute. *)
Inductive attribute : Type :=
| Missing
| Attr (v : value).

Definition as_object (m : BaseMessage) : attribute := Attr (msg_content m).

(** [getattr(message, "content", None)]. *)
Definition getattr_content (message : attribute) : value :=
  match message with
  | Missing => VNone
  | Attr v => v
  end.

Definition no_response : string := "No response generated".
Definition new_conversation : string := "New Conversation".

(** ** The registry: an insertion-ordered dict keyed by thread id *)

Record ThreadEntry : Type := mkEntry {
  created_at : datetime;
  last_activity : datetime;
  title : string;
  messages : list BaseMessage
}.

Definition Registry : Type := list (string * ThreadEntry).

Fixpoint lookup (thread_id : string) (r : Registry) : option ThreadEntry :=
  match r with
  | [] => None
  | (k, e) :: rest => if String.eqb k thread_id then Some e else lookup thread_id rest
  end.

Definition mem (thread_id : string) (r : Registry) : bool :=
  match lookup thread_id r with
  | Some _ => true
  | None => false
  end.

(** [d[k] = e]: a present key keeps its place, a new key goes last. *)
Fixpoint store (thread_id : string) (e : ThreadEntry) (r : Registry) : Registry :=
  match r with
  | [] => [(thread_id, e)]
  | (k, old) :: rest =>
      if String.eqb k thread_id then (k, e) :: rest
      else (k, old) :: store thread_id e rest
  end.

Definition keys (r : Registry) : list string := map fst r.

(** [x or default] on an optional [str]. *)
Definition str_or (x : option string) (default : string) : string :=
  match x with
  | Some s => if truthy s then s else default
  | None => default
  end.

Definition list_or {A : Type} (x : option (list A)) (default : list A) : list A :=
  match x with
  | Some (a :: l) => a :: l
  | _ => default
  end.

(** [d[k][field] = ...]: the entry under a present key is changed where
    it stands. *)
Fixpoint adjust (f : ThreadEntry -> ThreadEntry) (thread_id : string)
         (r : Registry) : Registry :=
  match r with
  | [] => []
  | (k, e) :: rest =>
      if String.eqb k thread_id then (k, f e) :: rest
      else (k, e) :: adjust f thread_id rest
  end.

Definition update_thread_registry (thread_registry : Registry) (now : datetime)
           (thread_id : string) (new_title : option string) (is_new : bool)
           (new_messages : option (list BaseMessage)) : Registry :=
  if negb (mem thread_id thread_registry) || is_new then
    store thread_id
          {| created_at := now;
             last_activity := now;
             title := str_or new_title new_conversation;
             messages := list_or new_messages [] |}
          thread_registry
  else
    adjust
      (fun entry =>
         {| created_at := created_at entry;
            last_activity := now;
            title := match new_title with
                     | Some t => if truthy t then t else title entry
                     | None => title entry
                     end;
            messages := match new_messages with
                        | Some ms => ms
                        | None => messages entry
                        end |})
      thread_id thread_registry.

Definition get_thread_messages_from_registry (thread_registry : Registry)
           (thread_id : string) : list BaseMessage :=
  match lookup thread_id thread_registry with
  | Some entry => messages entry
  | None => []
  end.

Record ThreadInfo : Type := mkInfo {
  info_thread_id : string;
  info_created_at : option datetime;
  info_last_activity : option datetime;
  info_title : string;
  info_message_count : nat
}.

(** [get_thread_metadata], with the [ThreadInfo] the endpoints build from it. *)
Definition get_thread_metadata (thread_registry : Registry) (thread_id : string)
  : ThreadInfo :=
  let messages := get_thread_messages_from_registry thread_registry thread_id in
  let registry_entry := lookup thread_id thread_registry in
  {| info_thread_id := thread_id;
     info_created_at := option_map created_at registry_entry;
     info_last_activity := option_map last_activity registry_entry;
     info_title := match registry_entry with
                   | Some e => title e
                   | None => new_conversation
                   end;
     info_message_count := List.length messages |}.

(** ** [generate_thread_title] *)

Definition generate_thread_title (first_message : string) : string :=
  let title := strip first_message in
  let title :=
    if 50 <? String.length title then (take 47 title ++ "...")%string else title in
  let title :=
    if truthy title then
      if 1 <? String.length title
      then (upper (take 1 title) ++ drop 1 title)%string
      else upper title
    else title in
  if truthy title then title else new_conversation.

(** ** [GET /threads] *)

(** [sorted(xs, key=key, reverse=True)]: descending by key, and elements
    with equal keys stay in their original order. *)
Fixpoint insert_descending {A : Type} (key : A -> Z) (x : A) (l : list A) : list A :=
  match l with
  | [] => [x]
  | y :: rest =>
      if (key x <? key y)%Z then y :: insert_descending key x rest
      else x :: l
  end.

Definition sorted_reverse {A : Type} (key : A -> Z) (xs : list A) : list A :=
  fold_right (insert_descending key) [] xs.

(** [xs[start:stop]] for [0 <= start]. *)
Definition slice {A : Type} (start stop : nat) (xs : list A) : list A :=
  firstn (stop - start) (skipn start xs).

(** The sort key of [list_threads]. *)
Definition activity_of (thread_registry : Registry) (tid : string) : datetime :=
  match lookup tid thread_registry with
  | Some e => last_activity e
  | None => datetime_min
  end.

Record ThreadListResponse : Type := mkThreadList {
  threads : list ThreadInfo;
  total : nat;
  limit_applied : nat;
  offset_applied : nat
}.

Definition list_threads (thread_registry : Registry) (limit offset : nat)
  : ThreadListResponse :=
  let all_threads := keys thread_registry in
  let sorted_threads := sorted_reverse (activity_of thread_registry) all_threads in
  let paginated_threads := slice offset (offset + limit) sorted_threads in
  {| threads := map (get_thread_metadata thread_registry) paginated_threads;
     total := List.length all_threads;
     limit_applied := limit;
     offset_applied := offset |}.

(** HTTP results. *)
Inductive http (A : Type) : Type :=
| OK (body : A)
| HTTPException (status_code : nat) (detail : string).

Arguments OK {A} body.
Arguments HTTPException {A} status_code detail.

(** The declared bounds of the query parameters,
    [Query(20, ge=1, le=100)] and [Query(0, ge=0)]: a request outside them
    is answered 422 before the function runs. *)
Definition get_threads (thread_registry : Registry) (limit offset : option Z)
  : http ThreadListResponse :=
  let limit := match limit with Some l => l | None => 20%Z end in
  let offset := match offset with Some o => o | None => 0%Z end in
  if ((1 <=? limit) && (limit <=? 100) && (0 <=? offset))%Z
  then OK (list_threads thread_registry (Z.to_nat limit) (Z.to_nat offset))
  else HTTPException 422 "Unprocessable Entity".

(** ** [extract_message_content] *)

Section Rendering.

(** [str(v)] of a value that is not a [str]: Python's own rendering. *)
Variable repr : value -> string.

Definition str (v : value) : string :=
  match v with
  | VStr s => s
  | _ => repr v
  end.

(** The body of the loop over a list content. *)
Definition item_text (item : value) : outcome string :=
  match item with
  | VDict d =>
      if dict_contains "text" d then
        t <- dict_getitem "text" d ;; Returned (str t)
      else if value_is_str (dict_get "type" d) "text" && dict_contains "text" d then
        t <- dict_getitem "text" d ;; Returned (str t)
      else Returned (str item)
  | VStr s => Returned s
  | _ => Returned (str item)
  end.

Fixpoint collect_text_parts (content : list value) : outcome (list string) :=
  match content with
  | [] => Returned []
  | item :: rest =>
      t <- item_text item ;;
      ts <- collect_text_parts rest ;;
      Returned (t :: ts)
  end.

Definition extract_message_content (message : option attribute) : outcome string :=
  match message with
  | None => Returned no_response
  | Some m =>
      match getattr_content m with
      | VNone => Returned no_response
      | VStr s => Returned s
      | VList items =>
          text_parts <- collect_text_parts items ;;
          Returned (match text_parts with
                    | [] => no_response
                    | _ => join " " text_parts
                    end)
      | other => Returned (str other)
      end
  end.

(** ** [POST /chat] *)

Definition get_default_context (agent_db : SQLDatabase) : Agent.RuntimeContext :=
  {| Agent.db := agent_db;
     Agent.user_first_name := "";
     Agent.user_last_name := "";
     Agent.has_valid_name := false |}.

Record ChatRequest : Type := mkChatRequest {
  message : string;
  thread_id : option string
}.

(** The arguments of [agent.stream]. *)
Record AgentCall : Type := mkCall {
  input_message : string;
  config_thread_id : string;
  context : Agent.RuntimeContext
}.

(** How the awaited invocation ends: the 30 seconds pass first, the
    stream raises, or it yields its steps, each a full message list
    (a step without messages is the empty list). *)
Inductive AgentRun : Type :=
| TimedOut
| Failed (e : exn)
| Streamed (steps : list (list BaseMessage)).

(** What one request takes from outside: a fresh uuid, the clock read on
    arrival, on completion and for the response, and the agent. *)
Record Environment : Type := mkEnv {
  uuid4 : string;
  now_on_arrival : datetime;
  now_on_completion : datetime;
  now_for_response : datetime;
  agent_stream : AgentCall -> AgentRun
}.

Record ToolCallInfo : Type := mkToolCallInfo {
  tool_name : string;
  args : value;
  info_tool_call_id : string;
  output : option string
}.

(** [model_name], a constant of the model object, is left out. *)
Record AgentDebugInfo : Type := mkDebug {
  step_count : nat;
  tool_calls : list ToolCallInfo
}.

Record ChatResponse : Type := mkChatResponse {
  response : string;
  response_thread_id : string;
  message_id : option string;
  timestamp : datetime;
  debug_info : AgentDebugInfo
}.

(** [process_agent]: the last non-empty step wins. *)
Fixpoint process_agent (last_message : option BaseMessage)
         (all_messages : list BaseMessage) (steps : list (list BaseMessage))
  : option BaseMessage * list BaseMessage :=
  match steps with
  | [] => (last_message, all_messages)
  | step_messages :: later =>
      match step_messages with
      | [] => process_agent last_message all_messages later
      | m :: ms => process_agent (Some (last (m :: ms) m)) step_messages later
      end
  end.

Definition is_class (c : message_class) (m : BaseMessage) : bool :=
  match c, msg_class m with
  | HumanMessage, HumanMessage | AIMessage, AIMessage
  | ToolMessage, ToolMessage | SystemMessage, SystemMessage => true
  | _, _ => false
  end.

(** The backward scan for the start of the turn: whether the user's
    message was met, and the messages visited up to it. *)
Fixpoint scan_turn (text : string) (reversed : list BaseMessage)
  : bool * list BaseMessage :=
  match reversed with
  | [] => (false, [])
  | msg :: rest =>
      if is_class HumanMessage msg && value_is_str (msg_content msg) text
      then (true, [msg])
      else let (found, visited) := scan_turn text rest in (found, msg :: visited)
  end.

Definition turn_of (text : string) (all_messages : list BaseMessage)
  : list BaseMessage :=
  let (found_start, turn_messages) := scan_turn text (rev all_messages) in
  if found_start then rev turn_messages else all_messages.

(** [tool_calls_map], an insertion-ordered dict from call id to info. *)
Definition tool_calls_map : Type := list (string * ToolCallInfo).

Fixpoint map_store (k : string) (v : ToolCallInfo) (m : tool_calls_map)
  : tool_calls_map :=
  match m with
  | [] => [(k, v)]
  | (k', v') :: rest =>
      if String.eqb k' k then (k', v) :: rest else (k', v') :: map_store k v rest
  end.

Fixpoint map_set_output (k : string) (out : string) (m : tool_calls_map)
  : tool_calls_map :=
  match m with
  | [] => []
  | (k', v') :: rest =>
      if String.eqb k' k
      then (k', {| tool_name := tool_name v'; args := args v';
                   info_tool_call_id := info_tool_call_id v';
                   output := Some out |}) :: rest
      else (k', v') :: map_set_output k out rest
  end.

Definition record_call (m : tool_calls_map) (tc : ToolCall) : tool_calls_map :=
  match call_id tc with
  | Some tc_id =>
      if truthy tc_id then
        map_store tc_id
                  {| tool_name := match call_name tc with
                                  | Some n => n
                                  | None => "unknown"
                                  end;
                     args := match call_args tc with
                             | Some a => a
                             | None => VDict []
                             end;
                     info_tool_call_id := tc_id;
                     output := None |}
                  m
      else m
  | None => m
  end.

Definition record_message (m : tool_calls_map) (msg : BaseMessage) : tool_calls_map :=
  let m := if is_class AIMessage msg
           then fold_left record_call (msg_tool_calls msg) m
           else m in
  if is_class ToolMessage msg
  then map_set_output (msg_tool_call_id msg) (str (msg_content msg)) m
  else m.

Definition debug_info_of (turn_messages : list BaseMessage) : AgentDebugInfo :=
  {| step_count := List.length turn_messages;
     tool_calls := map snd (fold_left record_message turn_messages []) |}.

(** The user-facing text and its message id. *)
Definition final_response (last_message : option BaseMessage)
           (all_messages : list BaseMessage) : outcome (string * option string) :=
  match last_message with
  | None => Returned (no_response, None)
  | Some last_message =>
      match find (is_class AIMessage) (rev all_messages) with
      | Some msg =>
          response_content <- extract_message_content (Some (as_object msg)) ;;
          Returned (response_content, msg_id msg)
      | None =>
          response_content <- extract_message_content (Some (as_object last_message)) ;;
          Returned (response_content, msg_id last_message)
      end
  end.

(** The three [except] clauses for an exception that is not an
    [HTTPException]. *)
Definition on_exception {A : Type} (e : exn) : http A :=
  match exn_kind e with
  | ValueError => HTTPException 400 ("Invalid request: " ++ exn_text e)
  | _ =>
      let error_details := exn_text e in
      if contains "validation error" (lower error_details) then
        HTTPException 500
          "The agent generated an unexpected response format. Please try again or use a different thread_id."
      else if contains "string_type" error_details
              || contains "Input should be a valid string" error_details then
        HTTPException 500
          "The agent response could not be processed. Please try again with a new thread_id or rephrase your question."
      else HTTPException 500 ("Agent error: " ++ error_details)
  end.

Definition request_timeout : string :=
  "Request timeout. The agent took too long to respond. Please try again.".

(** The result of a request: the HTTP answer, the registry it leaves,
    and the invocations of the agent it made. *)
Record Handled : Type := mkHandled {
  answer : http ChatResponse;
  registry_after : Registry;
  agent_calls : list AgentCall
}.

Definition chat (agent_db : SQLDatabase) (env : Environment)
           (thread_registry : Registry) (request : ChatRequest) : Handled :=
  let thread_id := str_or (thread_id request) (uuid4 env) in
  let context := get_default_context agent_db in
  let is_new_thread := negb (mem thread_id thread_registry) in
  let thread_registry :=
    if is_new_thread then
      let title := generate_thread_title (message request) in
      update_thread_registry thread_registry (now_on_arrival env) thread_id
                             (Some title) true None
    else
      update_thread_registry thread_registry (now_on_arrival env) thread_id
                             None false None in
  let call := {| input_message := message request;
                 config_thread_id := thread_id;
                 context := context |} in
  match agent_stream env call with
  | TimedOut =>
      {| answer := HTTPException 504 request_timeout;
         registry_after := thread_registry;
         agent_calls := [call] |}
  | Failed e =>
      {| answer := on_exception e;
         registry_after := thread_registry;
         agent_calls := [call] |}
  | Streamed steps =>
      let (last_message, all_messages) := process_agent None [] steps in
      let updated_messages := all_messages in
      let turn_messages := turn_of (message request) all_messages in
      let debug_info := debug_info_of turn_messages in
      match final_response last_message all_messages with
      | Raised e =>
          {| answer := on_exception e;
             registry_after := thread_registry;
             agent_calls := [call] |}
      | Returned (response_content, response_message_id) =>
          {| answer := OK {| response := response_content;
                             response_thread_id := thread_id;
                             message_id := response_message_id;
                             timestamp := now_for_response env;
                             debug_info := debug_info |};
             registry_after :=
               update_thread_registry thread_registry (now_on_completion env)
                                      thread_id None false (Some updated_messages);
             agent_calls := [call] |}
      end
  end.

(** ** A thread over several requests

    One turn is a request, what the outside gives it, and the actions the
    framework takes inside the invocation the request starts.  The gate
    sees the context that [chat] handed to [agent.stream]. *)
Record Turn : Type := mkTurn {
  turn_request : ChatRequest;
  turn_environment : Environment;
  turn_actions : list Agent.action
}.

Definition requests_of_call (agent_db : SQLDatabase) (prompt : option string)
           (actions : list Agent.action) (call : AgentCall)
  : list Agent.ModelRequest :=
  fst (Agent.invoke agent_db prompt (context call) actions).

Fixpoint model_requests (agent_db : SQLDatabase) (prompt : option string)
         (thread_registry : Registry) (turns : list Turn)
  : list Agent.ModelRequest :=
  match turns with
  | [] => []
  | t :: later =>
      let handled := chat agent_db (turn_environment t) thread_registry
                          (turn_request t) in
      flat_map (requests_of_call agent_db prompt (turn_actions t))
               (agent_calls handled)
      ++ model_requests agent_db prompt (registry_after handled) later
  end.

(** The invocations of the agent made over a thread. *)
Fixpoint thread_calls (agent_db : SQLDatabase) (thread_registry : Registry)
         (turns : list Turn) : list AgentCall :=
  match turns with
  | [] => []
  | t :: later =>
      let handled := chat agent_db (turn_environment t) thread_registry
                          (turn_request t) in
      agent_calls handled
      ++ thread_calls agent_db (registry_after handled) later
  end.

End Rendering.

End Backend.

(* ================================================================== *)
(** * The behaviour as the specification words it *)
(* ================================================================== *)

Module Described.
Import Py Backend.





(** "descending": no element is followed by one of a greater key. *)
Definition not_before {A : Type} (key : A -> Z) (a b : A) : Prop :=
  (key b <= key a)%Z.


(** Whitespace-only text, the empty text included. *)
Fixpoint all_space (s : string) : bool :=
  match s with
  | EmptyString => true
  | String c r => isspace c && all_space r
  end.

End Described.

(* ================================================================== *)
(** * Sample data *)
(* ================================================================== *)

Module Examples.
Import Py Sql Backend.

(** An engine that knows no statement but the lookup. *)
Definition rejects : string -> outcome (list row) :=
  fun _ => Raised (mkExn OperationalError "syntax error").

Definition frank : customer := mkCustomer "Frank" "Harris".
Definition jack : customer := mkCustomer "Jack" "Smith".
Definition tables : list string := ["Album"; "Artist"; "Customer"; "Invoice"].

Definition chinook : SQLDatabase := mkDb [frank; jack] None rejects tables.


(** A connection whose file cannot be opened. *)
Definition offline : SQLDatabase :=
  mkDb [frank; jack]
       (Some (mkExn OperationalError "unable to open database file"))
       rejects tables.

(** A rendering of values: exact on constants, on texts without quotes or
    escapes, and on containers of such. *)
Fixpoint repr (v : value) : string :=
  match v with
  | VNone => "None"
  | VBool b => if b then "True" else "False"
  | VInt z => if (z <? 0)%Z then "-" ++ NilZero.string_of_uint (N.to_uint (Z.abs_N z))
              else NilZero.string_of_uint (N.to_uint (Z.abs_N z))
  | VStr s => "'" ++ s ++ "'"
  | VList items => "[" ++ join ", " (map repr items) ++ "]"
  | VDict entries =>
      "{" ++ join ", " (map (fun kv => ("'" ++ fst kv ++ "': " ++ repr (snd kv))%string)
                            entries)
          ++ "}"
  end.

Definition human (text : string) : BaseMessage :=
  mkMessage HumanMessage (VStr text) None [] "".

Definition ai (text : string) : BaseMessage :=
  mkMessage AIMessage (VStr text) (Some "run-1") [] "".

(** An agent that does not answer within the 30 seconds. *)
Definition slow (now : datetime) : Environment :=
  {| uuid4 := "3f2b8c1e-0000-4000-8000-000000000001";
     now_on_arrival := now;
     now_on_completion := (now + 31)%Z;
     now_for_response := (now + 31)%Z;
     agent_stream := fun _ => TimedOut |}.

(** An agent that answers with the given final message list. *)
Definition answering (now : datetime) (trace : list BaseMessage) : Environment :=
  {| uuid4 := "3f2b8c1e-0000-4000-8000-000000000002";
     now_on_arrival := now;
     now_on_completion := (now + 2)%Z;
     now_for_response := (now + 2)%Z;
     agent_stream := fun _ => Streamed [trace] |}.

Definition hello : ChatRequest := {| message := "hello"; thread_id := Some "t1" |}.

Definition earlier : ThreadEntry :=
  {| created_at := 1%Z; last_activity := 1%Z; title := "Hi";
     messages := [human "hi"; ai "Please tell me your name."] |}.

(** A thread of two requests: the first gives a name of the dataset, the
    second asks a question. *)
Definition first_turn : Turn :=
  {| turn_request := {| message := "im frank harris"; thread_id := Some "t1" |};
     turn_environment :=
       answering 10%Z [human "im frank harris"; ai "Hello Frank! How can I help you today?"];
     turn_actions :=
       [Agent.AskModel; Agent.CallUpdateUserName "frank" "harris" "call-1"; Agent.AskModel] |}.

Definition second_turn : Turn :=
  {| turn_request := {| message := "what was my most cheap purchase?";
                        thread_id := Some "t1" |};
     turn_environment :=
       answering 20%Z [human "im frank harris"; ai "Hello Frank! How can I help you today?";
                       human "what was my most cheap purchase?";
                       ai "Please tell me your name."];
     turn_actions := [Agent.AskModel] |}.

Definition three_threads : Registry :=
  [ ("a", {| created_at := 1%Z; last_activity := 5%Z; title := "A"; messages := [] |});
    ("b", {| created_at := 2%Z; last_activity := 9%Z; title := "B"; messages := [human "x"] |});
    ("c", {| created_at := 3%Z; last_activity := 5%Z; title := "C"; messages := [] |}) ].

End Examples.

(* ================================================================== *)
(** * fastapi_backend.py: the other endpoints *)
(* ================================================================== *)

Module Endpoints.
Import Py Sql Backend.

(** ** [str.replace] with a non-empty [old]

    Left to right, occurrences that do not overlap; [skip] counts the
    characters of an occurrence that are still to be passed over. *)
Fixpoint replace_from (old new : string) (skip : nat) (s : string) : string :=
  match s with
  | EmptyString => EmptyString
  | String c r =>
      match skip with
      | S k => replace_from old new k r
      | O =>
          if String.prefix old s
          then (new ++ replace_from old new (String.length old - 1) r)%string
          else String c (replace_from old new 0 r)
      end
  end.

Definition replace (old new s : string) : string := replace_from old new 0 s.

(** The [type] attribute of the framework's message classes. *)
Definition message_type (c : message_class) : string :=
  match c with
  | HumanMessage => "human"
  | AIMessage => "ai"
  | ToolMessage => "tool"
  | SystemMessage => "system"
  end.

(** ** [serialize_message] *)

Record MessageModel : Type := mkMessageModel {
  model_id : option string;
  role : string;
  model_content : string;
  model_timestamp : datetime
}.

Record MessagesResponse : Type := mkMessagesResponse {
  page : list MessageModel;
  page_thread_id : string;
  page_total : nat;
  page_limit : nat;
  page_offset : nat
}.

Section Rendering.

Variable repr : value -> string.

Definition serialize_message (now : datetime) (message : BaseMessage)
  : outcome MessageModel :=
  content <- extract_message_content repr (Some (as_object message)) ;;
  let role :=
    if is_class HumanMessage message then "user"
    else if is_class AIMessage message then "assistant"
    else replace "_message" "" (message_type (msg_class message)) in
  let message_id := msg_id message in
  let timestamp := now in
  Returned {| model_id := message_id;
              role := role;
              model_content := content;
              model_timestamp := timestamp |}.

(** [[serialize_message(msg) for msg in messages]]: every message reads
    the clock once, [clock i] for the message at index [i]. *)
Fixpoint serialize_from (clock : nat -> datetime) (i : nat)
         (messages : list BaseMessage) : outcome (list MessageModel) :=
  match messages with
  | [] => Returned []
  | msg :: rest =>
      m <- serialize_message (clock i) msg ;;
      ms <- serialize_from clock (S i) rest ;;
      Returned (m :: ms)
  end.

(** ** [GET /threads/{thread_id}/messages] *)
Definition get_thread_messages (thread_registry : Registry) (clock : nat -> datetime)
           (thread_id : string) (limit offset : nat) : outcome MessagesResponse :=
  let messages := get_thread_messages_from_registry thread_registry thread_id in
  match messages with
  | [] =>
      Returned {| page := []; page_thread_id := thread_id; page_total := 0;
                  page_limit := limit; page_offset := offset |}
  | _ =>
      serialized_messages <- serialize_from clock 0 messages ;;
      let paginated_messages := slice offset (offset + limit) serialized_messages in
      Returned {| page := paginated_messages;
                  page_thread_id := thread_id;
                  page_total := List.length serialized_messages;
                  page_limit := limit;
                  page_offset := offset |}
  end.

End Rendering.

(** ** [POST /threads] *)

Record ThreadCreate : Type := mkThreadCreate {
  create_thread_id : option string;
  create_title : option string
}.

(** The answer (status 201) and the registry left. *)
Definition create_thread (thread_registry : Registry) (now : datetime)
           (uuid4 : string) (thread_data : option ThreadCreate)
  : ThreadInfo * Registry :=
  let thread_id :=
    match thread_data with
    | Some d => str_or (create_thread_id d) uuid4
    | None => uuid4
    end in
  let title :=
    match thread_data with
    | Some d => create_title d
    | None => None
    end in
  let thread_registry :=
    update_thread_registry thread_registry now thread_id title true None in
  (get_thread_metadata thread_registry thread_id, thread_registry).

(** ** [GET /threads/{thread_id}] *)
Definition get_thread (thread_registry : Registry) (thread_id : string) : ThreadInfo :=
  get_thread_metadata thread_registry thread_id.

(** ** [DELETE /threads/{thread_id}] *)

(** [del d[k]]: the key is gone. *)
Definition delete (thread_id : string) (r : Registry) : Registry :=
  filter (fun kv => negb (String.eqb (fst kv) thread_id)) r.

Record Deleted : Type := mkDeleted {
  deleted_thread_id : string;
  deleted_status : string;
  deleted_message : string
}.

(** The answer (status 200) and the registry left; nothing in the [try]
    block can raise. *)
Definition delete_thread (thread_registry : Registry) (thread_id : string)
  : Deleted * Registry :=
  let thread_registry :=
    if mem thread_id thread_registry
    then delete thread_id thread_registry
    else thread_registry in
  ({| deleted_thread_id := thread_id;
      deleted_status := "deleted";
      deleted_message := "Thread deleted successfully" |},
   thread_registry).

(** ** Words for the statements about one turn *)

(** The test of the backward scan in [chat]: a [HumanMessage] whose content
    is the submitted text. *)
Definition starts_turn (text : string) (m : BaseMessage) : bool :=
  is_class HumanMessage m && value_is_str (msg_content m) text.

(** A tool call the debug info records: one with a non-empty id. *)
Definition recordable (tc : ToolCall) (id : string) : Prop :=
  call_id tc = Some id /\ truthy id = true.

(** What holds of the map of tool calls while a turn is read: distinct
    ids, each entry filed under its own id and taken from a tool call of an
    [AIMessage] of the turn, each output taken from a [ToolMessage] of the
    turn with that id. *)
Definition well_formed (repr : value -> string) (turn : list BaseMessage)
           (m : tool_calls_map) : Prop :=
  NoDup (map fst m)
  /\ forall k v, In (k, v) m ->
       info_tool_call_id v = k
       /\ (exists msg tc, In msg turn /\ is_class AIMessage msg = true
                          /\ In tc (msg_tool_calls msg) /\ recordable tc k)
       /\ (forall out, output v = Some out ->
             exists msg, In msg turn /\ is_class ToolMessage msg = true
                         /\ msg_tool_call_id msg = k
                         /\ out = str repr (msg_content msg)).

(** The largest [last_activity] of a registry, [datetime_min] when empty. *)
Definition latest_activity (r : Registry) : datetime :=
  fold_right (fun kv acc => Z.max (last_activity (snd kv)) acc) datetime_min r.

End Endpoints.

(* ================================================================== *)
(** * Facts about the string methods *)
(* ================================================================== *)

Module PyFacts.
Import Py.



(** [lstrip] leaves nothing exactly of whitespace-only text. *)
Lemma lstrip_empty_iff (s : string) :
  lstrip s = EmptyString <-> Described.all_space s = true.
Proof.
  induction s as [|c s IH]; simpl.
  - tauto.
  - destruct (isspace c); simpl.
    + exact IH.
    + split; discriminate.
Qed.







(** A stripped text does not end with whitespace either. *)
Lemma rstrip_last (s t : string) (c : ascii) :
  rstrip s = (t ++ String c EmptyString)%string -> isspace c = false.
Proof.
  revert t; induction s as [|a s IH]; intros t; cbn [rstrip].
  - destruct t; discriminate.
  - destruct (rstrip s) as [|b u] eqn:E.
    + destruct (isspace a) eqn:Ea.
      * destruct t; discriminate.
      * destruct t as [|x [|y t]]; cbn [append]; intros H;
          try discriminate H.
        now injection H as ->.
    + destruct t as [|x t]; cbn [append]; intros H; [discriminate H|].
      injection H as _ H. now apply (IH t).
Qed.

Lemma strip_last (s t : string) (c : ascii) :
  strip s = (t ++ String c EmptyString)%string -> isspace c = false.
Proof. apply rstrip_last. Qed.




End PyFacts.

(* ================================================================== *)
(** * Thread titles *)
(* ================================================================== *)

Module TitleFacts.
Import Py Backend Described PyFacts.









End TitleFacts.

(* ================================================================== *)
(** * The name validator *)
(* ================================================================== *)

Module SqlFacts.
Import Py Sql.













(** C5, as stated, fails: when the connection cannot be opened the
    validator raises the engine's exception instead of returning false. *)
Lemma customer_exists_raises_when_lookup_fails :
  customer_exists Examples.offline "frank" "harris"
  = Raised (mkExn OperationalError "unable to open database file")
  /\ customer_exists Examples.offline "frank" "harris" <> Returned false.
Proof. split; [vm_compute; reflexivity | discriminate]. Qed.

(** C5, amended.  The validator catches nothing.  When the lookup raises,
    the same exception reaches the caller; when the lookup returns a first
    row with a first cell, the validator returns a boolean, false exactly
    for the cell 0; a result without such a cell raises. *)
Theorem customer_exists_propagates
        (db : SQLDatabase) (first_name last_name : string) :
  match run db (lookup_statement first_name last_name) with
  | Raised e => customer_exists db first_name last_name = Raised e
  | Returned ((c :: _) :: _) =>
      customer_exists db first_name last_name = Returned (negb (equals_zero c))
  | Returned _ => raises (customer_exists db first_name last_name) = true
  end.
Proof.
  unfold customer_exists.
  destruct (run db (lookup_statement first_name last_name)) as [fetched|e];
    [|reflexivity].
  destruct fetched as [|[|c r] rest]; reflexivity.
Qed.

End SqlFacts.

(* ================================================================== *)
(** * The executor and the gate *)
(* ================================================================== *)

Module AgentFacts.
Import Py Sql Agent.

(** C6. [execute_sql] never raises: it returns the rows of the data engine
    when the engine returns, and otherwise the text "Error: " followed by
    the description of the failure. *)
Theorem execute_sql_never_raises (context : RuntimeContext) (query : string) :
  raises (execute_sql context query) = false
  /\ match run (db context) query with
     | Returned fetched => execute_sql context query = Returned (Rows fetched)
     | Raised e =>
         execute_sql context query = Returned (Text ("Error: " ++ exn_text e))
         /\ String.prefix "Error:" ("Error: " ++ exn_text e) = true
     end.
Proof.
  unfold execute_sql, try_except.
  destruct (run (db context) query) as [fetched|e]; simpl.
  - split; reflexivity.
  - repeat split.
Qed.

(** ** The gate *)


Lemma forwarded_unverified (request : ModelRequest) :
  has_valid_name (runtime_context request) = false ->
  forwarded request = restricted (runtime_context request).
Proof. intros H. unfold forwarded, require_valid_name. now rewrite H. Qed.

Lemma forwarded_verified (request : ModelRequest) :
  has_valid_name (runtime_context request) = true ->
  forwarded request = request.
Proof. intros H. unfold forwarded, require_valid_name. now rewrite H. Qed.

Lemma forwarded_context (request : ModelRequest) :
  runtime_context (forwarded request) = runtime_context request.
Proof.
  destruct (has_valid_name (runtime_context request)) eqn:E.
  - now rewrite forwarded_verified.
  - now rewrite forwarded_unverified.
Qed.


(** ** The flag under [update_user_name] *)

Lemma update_user_name_flag (sqldb : SQLDatabase) (f l call_id : string)
      (c : Command) (context : RuntimeContext) :
  update_user_name sqldb f l call_id = Returned c ->
  has_valid_name (merge c context)
  = passes sqldb (CallUpdateUserName f l call_id) || has_valid_name context.
Proof.
  unfold update_user_name, passes.
  destruct (customer_exists sqldb f l) as [[|]|e]; simpl; intros H;
    try discriminate H; injection H as <-; reflexivity.
Qed.


(** Inside one invocation the flag, once true, stays true whatever is
    attempted afterwards. *)
Lemma invoke_verified (sqldb : SQLDatabase) (prompt : option string)
      (actions : list action) :
  forall context,
    has_valid_name context = true ->
    Forall (fun r => has_valid_name (runtime_context r) = true)
           (fst (invoke sqldb prompt context actions))
    /\ has_valid_name (snd (invoke sqldb prompt context actions)) = true.
Proof.
  induction actions as [|a rest IH]; intros context Hc.
  - split; [constructor | exact Hc].
  - destruct a as [|f l call_id|query]; cbn [invoke].
    + destruct (IH context Hc) as [IH1 IH2].
      destruct (invoke sqldb prompt context rest) as [later final].
      split; [|exact IH2].
      constructor; [|exact IH1].
      now rewrite forwarded_context.
    + destruct (update_user_name sqldb f l call_id) as [c|e] eqn:E.
      * apply IH.
        rewrite (update_user_name_flag _ _ _ _ _ _ E), Hc.
        apply orb_true_r.
      * split; [constructor | exact Hc].
    + destruct (execute_sql context query).
      * now apply IH.
      * split; [constructor | exact Hc].
Qed.



End AgentFacts.

(* ================================================================== *)
(** * The registry and [POST /chat] *)
(* ================================================================== *)

Module RegistryFacts.
Import Py Backend.

Lemma lookup_store_same (k : string) (e : ThreadEntry) (r : Registry) :
  lookup k (store k e r) = Some e.
Proof.
  induction r as [|[k' e'] r IH]; simpl.
  - now rewrite String.eqb_refl.
  - destruct (String.eqb k' k) eqn:E; simpl; rewrite E; [reflexivity | exact IH].
Qed.

Lemma lookup_store_other (k k' : string) (e : ThreadEntry) (r : Registry) :
  k' <> k -> lookup k' (store k e r) = lookup k' r.
Proof.
  intros N. induction r as [|[k0 e0] r IH]; simpl.
  - destruct (String.eqb_spec k k'); [congruence | reflexivity].
  - destruct (String.eqb_spec k0 k) as [->|N0]; simpl.
    + destruct (String.eqb_spec k k'); [congruence | reflexivity].
    + destruct (String.eqb k0 k'); [reflexivity | exact IH].
Qed.

Lemma lookup_adjust_same (f : ThreadEntry -> ThreadEntry) (k : string) (r : Registry) :
  lookup k (adjust f k r) = option_map f (lookup k r).
Proof.
  induction r as [|[k' e'] r IH]; simpl; [reflexivity|].
  destruct (String.eqb k' k) eqn:E; simpl; rewrite E; [reflexivity | exact IH].
Qed.

Lemma lookup_adjust_other (f : ThreadEntry -> ThreadEntry) (k k' : string)
      (r : Registry) :
  k' <> k -> lookup k' (adjust f k r) = lookup k' r.
Proof.
  intros N. induction r as [|[k0 e0] r IH]; simpl; [reflexivity|].
  destruct (String.eqb_spec k0 k) as [->|N0]; simpl.
  - destruct (String.eqb_spec k k'); [congruence | reflexivity].
  - destruct (String.eqb k0 k'); [reflexivity | exact IH].
Qed.

(** An update touches no other thread. *)
Lemma update_thread_registry_other (r : Registry) (now : datetime)
      (k k' : string) (t : option string) (is_new : bool)
      (ms : option (list BaseMessage)) :
  k' <> k ->
  lookup k' (update_thread_registry r now k t is_new ms) = lookup k' r.
Proof.
  intros N. unfold update_thread_registry.
  destruct (negb (mem k r) || is_new).
  - now apply lookup_store_other.
  - now apply lookup_adjust_other.
Qed.

Lemma generate_thread_title_truthy (m : string) :
  truthy (generate_thread_title m) = true.
Proof.
  unfold generate_thread_title.
  match goal with |- truthy (if truthy ?t then _ else _) = true =>
    destruct (truthy t) eqn:E; [exact E | reflexivity] end.
Qed.

End RegistryFacts.

Module ChatFacts.
Import Py Sql Backend RegistryFacts.

Section Server.

Variable repr : value -> string.
Variable agent_db : SQLDatabase.

(** The call [chat] hands to [agent.stream]. *)
Lemma chat_calls (env : Environment) (reg : Registry) (request : ChatRequest) :
  agent_calls (chat repr agent_db env reg request)
  = [ {| input_message := message request;
         config_thread_id := str_or (thread_id request) (uuid4 env);
         context := get_default_context agent_db |} ].
Proof.
  unfold chat.
  destruct (agent_stream env _) as [| e | steps]; try reflexivity.
  destruct (process_agent None [] steps) as [last_message all_messages].
  destruct (final_response repr last_message all_messages) as [[? ?]|?];
    reflexivity.
Qed.

(** The registry as the update on arrival leaves it. *)
Lemma arrival_lookup (now : datetime) (reg : Registry) (tid text : string) :
  lookup tid
         (if negb (mem tid reg)
          then update_thread_registry reg now tid
                                      (Some (generate_thread_title text)) true None
          else update_thread_registry reg now tid None false None)
  = Some match lookup tid reg with
         | Some e => {| created_at := created_at e; last_activity := now;
                        title := title e; messages := messages e |}
         | None => {| created_at := now; last_activity := now;
                      title := generate_thread_title text; messages := [] |}
         end.
Proof.
  unfold update_thread_registry, mem.
  destruct (lookup tid reg) as [e|] eqn:E; cbn [negb orb].
  - rewrite lookup_adjust_same, E. reflexivity.
  - rewrite lookup_store_same. unfold str_or.
    now rewrite generate_thread_title_truthy.
Qed.

End Server.

(** C1, as stated, fails: a request that times out has already created the
    entry of a new thread id, and has already refreshed the last activity
    of an existing one. *)
Lemma chat_timeout_changes_registry :
  answer (chat Examples.repr Examples.chinook (Examples.slow 5%Z) [] Examples.hello)
  = HTTPException 504 request_timeout
  /\ lookup "t1" [] = None
  /\ lookup "t1" (registry_after
                    (chat Examples.repr Examples.chinook (Examples.slow 5%Z) []
                          Examples.hello))
     = Some {| created_at := 5%Z; last_activity := 5%Z; title := "Hello";
               messages := [] |}
  /\ answer (chat Examples.repr Examples.chinook (Examples.slow 5%Z)
                  [("t1", Examples.earlier)] Examples.hello)
     = HTTPException 504 request_timeout
  /\ option_map last_activity (lookup "t1" [("t1", Examples.earlier)]) = Some 1%Z
  /\ option_map last_activity
       (lookup "t1" (registry_after
                       (chat Examples.repr Examples.chinook (Examples.slow 5%Z)
                             [("t1", Examples.earlier)] Examples.hello)))
     = Some 5%Z.
Proof. repeat split. Qed.

(** C1, amended.  A request whose invocation times out is answered 504 and
    changes the registry only by the update made on arrival, before the
    invocation: an unknown thread id gets an entry with the generated
    title, an empty message trace and both timestamps at the arrival time;
    a known one keeps its creation time, title and message trace and gets
    the arrival time as last activity.  Nothing is written after the
    timeout, and no other thread is touched. *)
Theorem chat_timeout (repr : value -> string) (agent_db : SQLDatabase)
        (env : Environment) (reg : Registry) (request : ChatRequest) :
  Forall (fun c => agent_stream env c = TimedOut)
         (agent_calls (chat repr agent_db env reg request)) ->
  let tid := str_or (thread_id request) (uuid4 env) in
  let handled := chat repr agent_db env reg request in
  answer handled = HTTPException 504 request_timeout
  /\ registry_after handled
     = (if negb (mem tid reg)
        then update_thread_registry reg (now_on_arrival env) tid
               (Some (generate_thread_title (message request))) true None
        else update_thread_registry reg (now_on_arrival env) tid None false None)
  /\ lookup tid (registry_after handled)
     = Some match lookup tid reg with
            | Some e => {| created_at := created_at e;
                           last_activity := now_on_arrival env;
                           title := title e;
                           messages := messages e |}
            | None => {| created_at := now_on_arrival env;
                         last_activity := now_on_arrival env;
                         title := generate_thread_title (message request);
                         messages := [] |}
            end
  /\ forall other, other <> tid ->
                   lookup other (registry_after handled) = lookup other reg.
Proof.
  rewrite chat_calls. intros H. apply Forall_inv in H.
  cbv zeta. unfold chat. rewrite H. cbn [answer registry_after].
  split; [reflexivity|]. split; [reflexivity|]. split.
  - apply arrival_lookup.
  - intros other N.
    destruct (negb (mem _ reg)); now apply update_thread_registry_other.
Qed.

Lemma chat_timeout_witness :
  answer (chat Examples.repr Examples.chinook (Examples.slow 5%Z)
               [("t1", Examples.earlier)] Examples.hello)
  = HTTPException 504 request_timeout
  /\ option_map messages
       (lookup "t1" (registry_after
                       (chat Examples.repr Examples.chinook (Examples.slow 5%Z)
                             [("t1", Examples.earlier)] Examples.hello)))
     = Some (messages Examples.earlier).
Proof.
  destruct (chat_timeout Examples.repr Examples.chinook (Examples.slow 5%Z)
                         [("t1", Examples.earlier)] Examples.hello)
    as [H1 [_ [H2 _]]].
  - repeat constructor.
  - split; [exact H1|]. exact (f_equal (option_map messages) H2).
Defined.

End ChatFacts.

(* ================================================================== *)
(** * The context of every invocation *)
(* ================================================================== *)

Module ContextFacts.
Import Py Sql Backend ChatFacts.



End ContextFacts.

(* ================================================================== *)
(** * Content extraction *)
(* ================================================================== *)

Module ExtractFacts.
Import Py Backend.

Lemma dict_getitem_present (key : string) (d : list (string * value)) :
  dict_contains key d = true -> exists v, dict_getitem key d = Returned v.
Proof.
  induction d as [|[k v] d IH]; simpl; [discriminate|].
  destruct (String.eqb k key); simpl; [eauto | exact IH].
Qed.

Section Rendering.

Variable repr : value -> string.

Lemma item_text_returns (item : value) :
  exists t, item_text repr item = Returned t.
Proof.
  destruct item as [| b | z | s | items | d]; simpl; eauto.
  destruct (dict_contains "text" d) eqn:E.
  - destruct (dict_getitem_present _ _ E) as [v ->]. simpl. eauto.
  - rewrite andb_false_r. eauto.
Qed.

Lemma collect_text_parts_returns (content : list value) :
  exists ts, collect_text_parts repr content = Returned ts.
Proof.
  induction content as [|item rest [ts IH]]; simpl; [eauto|].
  destruct (item_text_returns item) as [t ->]. simpl.
  rewrite IH. simpl. eauto.
Qed.

End Rendering.

(** C10. [extract_message_content] returns a text for every argument: no
    message, a message without content or with content [None], a text, a
    list of whatever items, or any other value; and the text is
    "No response generated" when the message or its content is [None]. *)
Theorem extract_message_content_total (repr : value -> string)
        (message : option attribute) :
  (exists text, extract_message_content repr message = Returned text)
  /\ raises (extract_message_content repr message) = false
  /\ extract_message_content repr None = Returned "No response generated"
  /\ extract_message_content repr (Some Missing) = Returned "No response generated"
  /\ extract_message_content repr (Some (Attr VNone))
     = Returned "No response generated".
Proof.
  assert (T : exists text, extract_message_content repr message = Returned text).
  { destruct message as [[|v]|]; simpl; eauto.
    destruct v as [| b | z | s | items | d]; simpl; eauto.
    destruct (collect_text_parts_returns repr items) as [ts ->]. simpl. eauto. }
  split; [exact T|].
  split; [destruct T as [text ->]; reflexivity|].
  repeat split.
Qed.

End ExtractFacts.

(* ================================================================== *)
(** * [GET /threads] *)
(* ================================================================== *)

Module ListingFacts.
Import Py Backend Described.

Section Sorting.

Context {A : Type} (key : A -> Z).

Local Abbreviation not_before := (Described.not_before key).

Lemma insert_descending_perm (x : A) (l : list A) :
  Permutation (insert_descending key x l) (x :: l).
Proof.
  induction l as [|y l IH]; simpl; [apply Permutation_refl|].
  destruct (key x <? key y)%Z; [|apply Permutation_refl].
  apply perm_trans with (y :: x :: l); [now apply perm_skip | apply perm_swap].
Qed.

Lemma sorted_reverse_perm (l : list A) : Permutation (sorted_reverse key l) l.
Proof.
  induction l as [|x l IH]; simpl; [constructor|].
  apply perm_trans with (x :: sorted_reverse key l).
  - apply insert_descending_perm.
  - now apply perm_skip.
Qed.

Lemma insert_descending_sorted (x : A) (l : list A) :
  StronglySorted not_before l ->
  StronglySorted not_before (insert_descending key x l).
Proof.
  induction 1 as [|y l Hs IH Hy]; simpl.
  - repeat constructor.
  - destruct (key x <? key y)%Z eqn:E.
    + constructor; [exact IH|].
      apply (Permutation_Forall (Permutation_sym (insert_descending_perm x l))).
      constructor; [|exact Hy].
      apply Z.ltb_lt in E. unfold not_before. lia.
    + apply Z.ltb_ge in E.
      constructor; [now constructor|].
      constructor; [exact E|].
      revert Hy. apply Forall_impl. unfold not_before. intros; lia.
Qed.

Lemma sorted_reverse_sorted (l : list A) :
  StronglySorted not_before (sorted_reverse key l).
Proof.
  induction l as [|x l IH]; simpl; [constructor|].
  now apply insert_descending_sorted.
Qed.

(** Elements of one key keep the order they came in. *)
Lemma insert_descending_stable (k : Z) (x : A) (l : list A) :
  filter (fun a => (key a =? k)%Z) (insert_descending key x l)
  = filter (fun a => (key a =? k)%Z) (x :: l).
Proof.
  induction l as [|y l IH]; [reflexivity|].
  cbn [insert_descending].
  destruct (key x <? key y)%Z eqn:E; [|reflexivity].
  apply Z.ltb_lt in E.
  cbn [filter] in *. rewrite IH.
  destruct (Z.eqb_spec (key x) k) as [Hx|Hx];
    destruct (Z.eqb_spec (key y) k) as [Hy|Hy]; try reflexivity.
  lia.
Qed.

Lemma sorted_reverse_stable (k : Z) (l : list A) :
  filter (fun a => (key a =? k)%Z) (sorted_reverse key l)
  = filter (fun a => (key a =? k)%Z) l.
Proof.
  induction l as [|x l IH]; [reflexivity|].
  cbn [sorted_reverse fold_right].
  rewrite insert_descending_stable. cbn [filter].
  fold (sorted_reverse key l). now rewrite IH.
Qed.

End Sorting.

Lemma slice_window {A : Type} (L O : nat) (xs : list A) :
  slice O (O + L) xs = firstn L (skipn O xs).
Proof. unfold slice. now replace (O + L - O) with L by lia. Qed.


(** The bounds declared for the query parameters. *)
Lemma get_threads_within_bounds (reg : Registry) (L O : Z) :
  (1 <= L <= 100)%Z -> (0 <= O)%Z ->
  get_threads reg (Some L) (Some O)
  = OK (list_threads reg (Z.to_nat L) (Z.to_nat O)).
Proof.
  intros HL HO. unfold get_threads.
  destruct (Z.leb_spec 1 L); [|lia].
  destruct (Z.leb_spec L 100); [|lia].
  destruct (Z.leb_spec 0 O); [|lia].
  reflexivity.
Qed.

Example list_threads_sample :
  map info_thread_id (threads (list_threads Examples.three_threads 2 1)) = ["a"; "c"]
  /\ total (list_threads Examples.three_threads 2 1) = 3.
Proof. split; reflexivity. Qed.

End ListingFacts.

(* ================================================================== *)
(** * The gate over a thread *)
(* ================================================================== *)

Module GateFacts.
Import Py Sql Agent Backend ChatFacts AgentFacts.

Section Thread.

Variable repr : value -> string.
Variable agent_db : SQLDatabase.
Variable prompt : option string.

Local Abbreviation requests := (model_requests repr agent_db prompt).
Local Abbreviation quiet := (forallb (fun a => negb (passes agent_db a))).





End Thread.



(** C3 at a thread of two requests.  The first submits a name of the
    dataset: the gate sees the flag false, then true.  On the second
    request of the same thread the gate sees it false again, and only
    [update_user_name] is exposed. *)
Theorem flag_is_reset_on_the_next_turn :
  map (fun r => has_valid_name (runtime_context r))
      (model_requests Examples.repr Examples.chinook None []
                      [Examples.first_turn; Examples.second_turn])
  = [false; true; false]
  /\ map tools
         (model_requests Examples.repr Examples.chinook None []
                         [Examples.first_turn; Examples.second_turn])
     = [[UpdateUserName]; [ExecuteSql; UpdateUserName]; [UpdateUserName]]
  /\ map (fun c => has_valid_name (context c))
         (thread_calls Examples.repr Examples.chinook []
                       [Examples.first_turn; Examples.second_turn])
     = [false; false].
Proof. repeat split. Qed.

End GateFacts.

(* ================================================================== *)
(** * The registry as a dictionary *)
(* ================================================================== *)

Module DictFacts.
Import Py Backend Endpoints RegistryFacts.

Lemma mem_In (k : string) (r : Registry) : mem k r = true <-> In k (keys r).
Proof.
  unfold mem. induction r as [|[k' e] r IH]; simpl.
  - split; [discriminate | tauto].
  - destruct (String.eqb_spec k' k) as [->|N]; [tauto|].
    rewrite IH. split; [tauto | intros [H|H]; [congruence | exact H]].
Qed.

Lemma mem_false_not_In (k : string) (r : Registry) :
  mem k r = false <-> ~ In k (keys r).
Proof.
  rewrite <- mem_In. destruct (mem k r); split; congruence.
Qed.

Lemma keys_store (k : string) (e : ThreadEntry) (r : Registry) :
  keys (store k e r) = if mem k r then keys r else keys r ++ [k].
Proof.
  unfold mem. induction r as [|[k' e'] r IH]; simpl; [reflexivity|].
  destruct (String.eqb k' k); simpl; [reflexivity|].
  rewrite IH. now destruct (lookup k r).
Qed.

Lemma keys_adjust (f : ThreadEntry -> ThreadEntry) (k : string) (r : Registry) :
  keys (adjust f k r) = keys r.
Proof.
  induction r as [|[k' e'] r IH]; simpl; [reflexivity|].
  destruct (String.eqb k' k); simpl; [reflexivity | now rewrite IH].
Qed.

Lemma keys_update (r : Registry) (now : datetime) (k : string)
      (t : option string) (is_new : bool) (ms : option (list BaseMessage)) :
  keys (update_thread_registry r now k t is_new ms)
  = if mem k r then keys r else keys r ++ [k].
Proof.
  unfold update_thread_registry.
  destruct (mem k r) eqn:E; cbn [negb orb].
  - destruct is_new.
    + now rewrite keys_store, E.
    + apply keys_adjust.
  - now rewrite keys_store, E.
Qed.

Lemma length_keys (r : Registry) : List.length (keys r) = List.length r.
Proof. apply length_map. Qed.

Lemma lookup_delete_same (k : string) (r : Registry) : lookup k (delete k r) = None.
Proof.
  unfold delete. induction r as [|[k' e] r IH]; simpl; [reflexivity|].
  destruct (String.eqb k' k) eqn:E; simpl; [exact IH | now rewrite E].
Qed.

Lemma lookup_delete_other (k k' : string) (r : Registry) :
  k' <> k -> lookup k' (delete k r) = lookup k' r.
Proof.
  intros N. unfold delete. induction r as [|[k0 e] r IH]; simpl; [reflexivity|].
  destruct (String.eqb_spec k0 k) as [->|N0]; simpl.
  - destruct (String.eqb_spec k k'); [congruence | exact IH].
  - destruct (String.eqb k0 k'); [reflexivity | exact IH].
Qed.

Lemma delete_absent (k : string) (r : Registry) : mem k r = false -> delete k r = r.
Proof.
  unfold mem, delete. induction r as [|[k' e] r IH]; simpl; [reflexivity|].
  destruct (String.eqb k' k); simpl; [discriminate|].
  intros H. now rewrite IH.
Qed.

Lemma delete_store (k : string) (e : ThreadEntry) (r : Registry) :
  delete k (store k e r) = delete k r.
Proof.
  unfold delete. induction r as [|[k' e'] r IH]; simpl.
  - now rewrite String.eqb_refl.
  - destruct (String.eqb k' k) eqn:E; simpl; rewrite E; simpl;
      [reflexivity | now rewrite IH].
Qed.

Lemma length_delete (k : string) (r : Registry) :
  mem k r = true -> List.length (delete k r) < List.length r.
Proof.
  unfold mem, delete. induction r as [|[k' e] r IH]; simpl; [discriminate|].
  destruct (String.eqb k' k); simpl.
  - intros _. apply Nat.lt_succ_r. apply filter_length_le.
  - intros H. apply IH in H. lia.
Qed.

(** X1. An update of the registry never drops or reorders a thread id: a
    known id keeps its place, an unknown one is added last, and ids that
    were distinct stay distinct. *)
Theorem update_thread_registry_keeps_keys
        (r : Registry) (now : datetime) (k : string) (t : option string)
        (is_new : bool) (ms : option (list BaseMessage)) :
  NoDup (keys r) ->
  keys (update_thread_registry r now k t is_new ms)
  = (if mem k r then keys r else keys r ++ [k])
  /\ NoDup (keys (update_thread_registry r now k t is_new ms))
  /\ mem k (update_thread_registry r now k t is_new ms) = true.
Proof.
  intros ND. rewrite keys_update. split; [reflexivity|]. split.
  - destruct (mem k r) eqn:E; [exact ND|].
    apply mem_false_not_In in E.
    apply NoDup_app; [exact ND | repeat constructor; intros [] | ].
    intros x Hx [<-|[]]. now apply E.
  - apply mem_In. rewrite keys_update.
    destruct (mem k r) eqn:E; [now apply mem_In|].
    apply in_or_app. right. now left.
Qed.

Lemma update_thread_registry_keeps_keys_witness :
  keys (update_thread_registry Examples.three_threads 12%Z "d" None false None)
  = ["a"; "b"; "c"; "d"].
Proof.
  apply (update_thread_registry_keeps_keys
           Examples.three_threads 12%Z "d" None false None).
  repeat constructor; simpl; intuition discriminate.
Defined.

Lemma lookup_after_touch
      (r : Registry) (now : datetime) (k : string) (e : ThreadEntry)
      (t : option string) (ms : option (list BaseMessage)) :
  lookup k r = Some e ->
  lookup k (update_thread_registry r now k t false ms)
  = Some {| created_at := created_at e;
            last_activity := now;
            title := str_or t (title e);
            messages := match ms with Some given => given | None => messages e end |}.
Proof.
  intros H. unfold update_thread_registry, mem. rewrite H. cbn [negb orb].
  rewrite lookup_adjust_same, H. cbn [option_map].
  unfold str_or. destruct t as [x|]; reflexivity.
Qed.

(** X2. An update of a known thread that is not a creation keeps its
    creation time, sets the last activity, replaces the title only by a
    non-empty one and the message trace only when one is given (an empty
    trace included); the thread keeps its place and the others are
    untouched. *)
Theorem update_thread_registry_touch
        (r : Registry) (now : datetime) (k : string) (e : ThreadEntry)
        (t : option string) (ms : option (list BaseMessage)) :
  lookup k r = Some e ->
  lookup k (update_thread_registry r now k t false ms)
  = Some {| created_at := created_at e;
            last_activity := now;
            title := str_or t (title e);
            messages := match ms with Some given => given | None => messages e end |}
  /\ keys (update_thread_registry r now k t false ms) = keys r
  /\ forall other, other <> k ->
                   lookup other (update_thread_registry r now k t false ms)
                   = lookup other r.
Proof.
  intros H. split; [now apply lookup_after_touch|]. split.
  - rewrite keys_update. unfold mem. now rewrite H.
  - intros other N. now apply update_thread_registry_other.
Qed.

Lemma update_thread_registry_touch_witness :
  lookup "b" (update_thread_registry Examples.three_threads 12%Z "b"
                                     (Some "") false (Some []))
  = Some {| created_at := 2%Z; last_activity := 12%Z; title := "B"; messages := [] |}.
Proof.
  apply (update_thread_registry_touch Examples.three_threads 12%Z "b"
           {| created_at := 2%Z; last_activity := 9%Z; title := "B";
              messages := [Examples.human "x"] |} (Some "") (Some [])).
  reflexivity.
Defined.

(** X3. [POST /threads] overwrites: whether or not the id was known, the
    entry afterwards has both timestamps at the request time, the given
    title or "New Conversation", and no messages; the answer reports exactly
    that, [GET /threads/{id}] returns the same, and no other thread
    changes. *)
Theorem create_thread_resets
        (r : Registry) (now : datetime) (uuid : string)
        (data : option ThreadCreate) :
  let tid := match data with
             | Some d => str_or (create_thread_id d) uuid
             | None => uuid
             end in
  let given := match data with Some d => create_title d | None => None end in
  let info := fst (create_thread r now uuid data) in
  let r' := snd (create_thread r now uuid data) in
  lookup tid r' = Some {| created_at := now; last_activity := now;
                          title := str_or given "New Conversation";
                          messages := [] |}
  /\ info = {| info_thread_id := tid;
              info_created_at := Some now;
              info_last_activity := Some now;
              info_title := str_or given "New Conversation";
              info_message_count := 0 |}
  /\ get_thread r' tid = info
  /\ (forall other, other <> tid -> lookup other r' = lookup other r)
  /\ keys r' = (if mem tid r then keys r else keys r ++ [tid]).
Proof.
  cbv zeta. unfold create_thread. cbn [fst snd].
  set (tid := match data with Some d => _ | None => uuid end).
  set (given := match data with Some d => create_title d | None => None end).
  assert (L : lookup tid (update_thread_registry r now tid given true None)
              = Some {| created_at := now; last_activity := now;
                        title := str_or given "New Conversation";
                        messages := [] |}).
  { unfold update_thread_registry. rewrite orb_true_r.
    now rewrite lookup_store_same. }
  split; [exact L|]. split.
  - unfold get_thread_metadata, get_thread_messages_from_registry.
    now rewrite L.
  - split; [reflexivity|]. split.
    + intros other N. now apply update_thread_registry_other.
    + apply keys_update.
Qed.

(** X4. [DELETE /threads/{id}] is idempotent: afterwards the id is unknown
    and [GET /threads/{id}] answers with empty metadata; deleting again, or
    deleting an unknown id, changes nothing; no other thread changes. *)
Theorem delete_thread_idempotent (r : Registry) (tid : string) :
  let r' := snd (delete_thread r tid) in
  mem tid r' = false
  /\ get_thread r' tid = {| info_thread_id := tid;
                           info_created_at := None;
                           info_last_activity := None;
                           info_title := "New Conversation";
                           info_message_count := 0 |}
  /\ snd (delete_thread r' tid) = r'
  /\ (forall other, other <> tid -> lookup other r' = lookup other r)
  /\ (if mem tid r then List.length r' < List.length r else r' = r)
  /\ fst (delete_thread r tid) = fst (delete_thread r' tid).
Proof.
  cbv zeta. unfold delete_thread. cbn [fst snd].
  set (r' := if mem tid r then delete tid r else r).
  assert (M : mem tid r' = false).
  { subst r'. destruct (mem tid r) eqn:E; [|exact E].
    unfold mem. now rewrite lookup_delete_same. }
  split; [exact M|]. split.
  - unfold get_thread, get_thread_metadata, get_thread_messages_from_registry.
    unfold mem in M.
    destruct (lookup tid r'); [discriminate M | reflexivity].
  - split; [now rewrite M|]. split.
    + intros other N. subst r'.
      destruct (mem tid r); [now apply lookup_delete_other | reflexivity].
    + split; [|reflexivity]. subst r'.
      destruct (mem tid r) eqn:E; [now apply length_delete | reflexivity].
Qed.

(** X5. Creating a thread under an id that was unknown and deleting it
    again gives back the registry as it was. *)
Theorem create_then_delete
        (r : Registry) (now : datetime) (uuid : string)
        (data : option ThreadCreate) :
  let tid := match data with
             | Some d => str_or (create_thread_id d) uuid
             | None => uuid
             end in
  mem tid r = false ->
  snd (delete_thread (snd (create_thread r now uuid data)) tid) = r.
Proof.
  cbv zeta. intros H. unfold delete_thread, create_thread. cbn [fst snd].
  unfold update_thread_registry. rewrite orb_true_r.
  unfold mem at 1. rewrite lookup_store_same.
  rewrite delete_store. now apply delete_absent.
Qed.

Lemma create_then_delete_witness :
  snd (delete_thread
         (snd (create_thread Examples.three_threads 12%Z "u-1"
                             (Some (mkThreadCreate None (Some "Sales")))))
         "u-1")
  = Examples.three_threads.
Proof.
  apply (create_then_delete Examples.three_threads 12%Z "u-1"
           (Some (mkThreadCreate None (Some "Sales")))).
  reflexivity.
Defined.

End DictFacts.

(* ================================================================== *)
(** * Paging through the threads *)
(* ================================================================== *)

Module PagingFacts.
Import Py Backend Endpoints Described RegistryFacts DictFacts ListingFacts.

Lemma firstn_plus {A : Type} (n m : nat) (xs : list A) :
  firstn n xs ++ firstn m (skipn n xs) = firstn (n + m) xs.
Proof.
  revert xs; induction n as [|n IH]; intros [|x xs]; simpl;
    try reflexivity.
  - now destruct m.
  - now rewrite IH.
Qed.

Lemma skipn_plus {A : Type} (n m : nat) (xs : list A) :
  skipn (n + m) xs = skipn m (skipn n xs).
Proof.
  revert xs; induction n as [|n IH]; intros [|x xs]; simpl;
    try reflexivity.
  - now destruct m.
  - apply IH.
Qed.

Lemma slice_consecutive {A : Type} (O L L' : nat) (xs : list A) :
  slice O (O + L) xs ++ slice (O + L) (O + L + L') xs = slice O (O + (L + L')) xs.
Proof.
  rewrite !slice_window, skipn_plus. apply firstn_plus.
Qed.

Lemma length_slice {A : Type} (O L : nat) (xs : list A) :
  List.length (slice O (O + L) xs) = Nat.min L (List.length xs - O).
Proof. now rewrite slice_window, length_firstn, length_skipn. Qed.

Lemma length_sorted_reverse {A : Type} (key : A -> Z) (xs : list A) :
  List.length (sorted_reverse key xs) = List.length xs.
Proof. apply Permutation_length, sorted_reverse_perm. Qed.

(** X6. Consecutive pages of [GET /threads] join into the larger page, and
    a page holds exactly as many threads as the limit and the registry
    allow: none when the offset is past the end. *)
Theorem list_threads_pages (reg : Registry) (L L' O : nat) :
  threads (list_threads reg L O) ++ threads (list_threads reg L' (O + L))
  = threads (list_threads reg (L + L') O)
  /\ List.length (threads (list_threads reg L O))
     = Nat.min L (List.length reg - O)
  /\ total (list_threads reg L O) = total (list_threads reg L' (O + L)).
Proof.
  unfold list_threads. cbn [threads total]. split; [|split; [|reflexivity]].
  - rewrite <- map_app. f_equal. apply slice_consecutive.
  - rewrite length_map, length_slice, length_sorted_reverse. unfold keys.
    now rewrite length_map.
Qed.

Lemma activity_bounded (reg : Registry) (k : string) :
  (activity_of reg k <= latest_activity reg)%Z.
Proof.
  unfold activity_of, latest_activity, datetime_min.
  induction reg as [|[k' e] reg IH]; simpl; [lia|].
  destruct (String.eqb k' k); [lia|].
  destruct (lookup k reg); lia.
Qed.

Lemma activity_after_update (reg : Registry) (now : datetime) (tid : string)
      (t : option string) (is_new : bool) (ms : option (list BaseMessage)) :
  activity_of (update_thread_registry reg now tid t is_new ms) tid = now.
Proof.
  unfold activity_of, update_thread_registry, mem.
  destruct (lookup tid reg) as [e|] eqn:E; cbn [negb orb].
  - destruct is_new.
    + now rewrite lookup_store_same.
    + now rewrite lookup_adjust_same, E.
  - now rewrite lookup_store_same.
Qed.

Lemma activity_elsewhere (reg : Registry) (now : datetime) (tid k : string)
      (t : option string) (is_new : bool) (ms : option (list BaseMessage)) :
  k <> tid ->
  activity_of (update_thread_registry reg now tid t is_new ms) k = activity_of reg k.
Proof.
  intros N. unfold activity_of. now rewrite update_thread_registry_other.
Qed.

(** In a descending list an element of strictly greatest key is first. *)
Lemma greatest_is_head {A : Type} (eq_dec : forall a b : A, {a = b} + {a <> b})
      (key : A -> Z) (x : A) (s : list A) :
  StronglySorted (not_before key) s ->
  In x s ->
  (forall y, In y s -> y <> x -> (key y < key x)%Z) ->
  exists rest, s = x :: rest.
Proof.
  intros Hs Hin Hmax. destruct Hs as [|h rest Hrest Hh]; [destruct Hin|].
  destruct (eq_dec h x) as [->|N]; [eauto|].
  destruct Hin as [E|Hin]; [congruence|].
  rewrite Forall_forall in Hh. specialize (Hh x Hin). unfold not_before in Hh.
  specialize (Hmax h (or_introl eq_refl) N). lia.
Qed.

(** X7. The thread that was just updated leads the listing: when the update
    is later than every recorded activity, the first thread of
    [GET /threads] (offset 0, any limit of at least 1) is the updated one. *)
Theorem list_threads_latest_first
        (reg : Registry) (now : datetime) (tid : string) (t : option string)
        (is_new : bool) (ms : option (list BaseMessage)) (L : nat) :
  (latest_activity reg < now)%Z ->
  1 <= L ->
  exists rest,
    map info_thread_id
        (threads (list_threads (update_thread_registry reg now tid t is_new ms) L 0))
    = tid :: rest.
Proof.
  intros Hnow HL.
  set (reg' := update_thread_registry reg now tid t is_new ms).
  destruct (greatest_is_head string_dec (activity_of reg') tid
                             (sorted_reverse (activity_of reg') (keys reg')))
    as [rest E].
  - apply sorted_reverse_sorted.
  - apply (Permutation_in _ (Permutation_sym (sorted_reverse_perm _ _))).
    subst reg'. rewrite keys_update.
    destruct (mem tid reg) eqn:M; [now apply mem_In|].
    apply in_or_app. right. now left.
  - intros y _ N. subst reg'.
    rewrite activity_after_update, (activity_elsewhere _ _ _ _ _ _ _ N).
    pose proof (activity_bounded reg y). lia.
  - unfold list_threads. cbn [threads]. rewrite E.
    rewrite map_map. cbn [get_thread_metadata info_thread_id]. rewrite map_id.
    unfold slice. replace (0 + L - 0) with L by lia.
    destruct L as [|L]; [lia|]. cbn [skipn firstn]. eauto.
Qed.

Lemma list_threads_latest_first_witness :
  exists rest,
    map info_thread_id
        (threads (list_threads
                    (update_thread_registry Examples.three_threads 12%Z "c"
                                            None false None) 2 0))
    = "c" :: rest.
Proof.
  apply (list_threads_latest_first Examples.three_threads 12%Z "c" None false None 2).
  - vm_compute. reflexivity.
  - lia.
Defined.

End PagingFacts.

(* ================================================================== *)
(** * One request to [POST /chat], whatever its outcome *)
(* ================================================================== *)

Module OutcomeFacts.
Import Py Sql Backend Endpoints RegistryFacts ChatFacts DictFacts ExtractFacts.

Lemma extract_returns (repr : value -> string) (message : option attribute) :
  exists text, extract_message_content repr message = Returned text.
Proof.
  destruct message as [[|v]|]; simpl; eauto.
  destruct v as [| b | z | s | items | d]; simpl; eauto.
  destruct (collect_text_parts_returns repr items) as [ts ->]. simpl. eauto.
Qed.

Lemma final_response_returns (repr : value -> string)
      (last_message : option BaseMessage) (all_messages : list BaseMessage) :
  exists text id, final_response repr last_message all_messages = Returned (text, id).
Proof.
  unfold final_response. destruct last_message as [lm|]; [|eauto].
  destruct (find (is_class AIMessage) (rev all_messages)) as [m|].
  - destruct (extract_returns repr (Some (as_object m))) as [t ->]. simpl. eauto.
  - destruct (extract_returns repr (Some (as_object lm))) as [t ->]. simpl. eauto.
Qed.

(** The non-empty snapshots of a stream. *)
Lemma process_agent_snapshot (steps : list (list BaseMessage)) :
  forall last_message all_messages,
    process_agent last_message all_messages steps
    = match rev (filter (fun s => negb (Nat.eqb (List.length s) 0)) steps) with
      | [] => (last_message, all_messages)
      | [] :: _ => (last_message, all_messages)
      | (m :: ms) :: _ => (Some (last (m :: ms) m), m :: ms)
      end.
Proof.
  induction steps as [|s later IH]; intros lm all; [reflexivity|].
  cbn [process_agent filter].
  destruct s as [|m ms]; cbn [List.length Nat.eqb negb]; [apply IH|].
  rewrite IH. cbn [rev].
  destruct (rev (filter _ later)) as [|[|m' ms'] rest] eqn:E; cbn [app];
    try reflexivity.
  exfalso.
  assert (H : In [] (filter (fun s => negb (Nat.eqb (List.length s) 0)) later)).
  { apply in_rev. rewrite E. now left. }
  apply filter_In in H as [_ H]. discriminate H.
Qed.

Section Server.

Variable repr : value -> string.
Variable agent_db : SQLDatabase.

Local Abbreviation arrival env reg request :=
  (let tid := str_or (thread_id request) (uuid4 env) in
   if negb (mem tid reg)
   then update_thread_registry reg (now_on_arrival env) tid
          (Some (generate_thread_title (message request))) true None
   else update_thread_registry reg (now_on_arrival env) tid None false None).

Lemma chat_registry_cases (env : Environment) (reg : Registry) (request : ChatRequest) :
  let tid := str_or (thread_id request) (uuid4 env) in
  let handled := chat repr agent_db env reg request in
  registry_after handled = arrival env reg request
  \/ exists steps,
       registry_after handled
       = update_thread_registry (arrival env reg request) (now_on_completion env)
                                tid None false
                                (Some (snd (process_agent None [] steps))).
Proof.
  cbv zeta. unfold chat.
  destruct (agent_stream env _) as [| e | steps]; try (left; reflexivity).
  destruct (process_agent None [] steps) as [lm all] eqn:P.
  destruct (final_response repr lm all) as [[? ?]|?]; [|left; reflexivity].
  right. exists steps. rewrite P. reflexivity.
Qed.

End Server.

(** X8. The message list [chat] keeps from the stream is its last non-empty
    snapshot, and the last message is the last element of that snapshot; a
    stream without any message gives no last message and the empty list. *)
Theorem process_agent_last_snapshot (steps : list (list BaseMessage)) :
  let kept := last (filter (fun s => negb (Nat.eqb (List.length s) 0)) steps) [] in
  snd (process_agent None [] steps) = kept
  /\ fst (process_agent None [] steps)
     = match kept with
       | [] => None
       | m :: ms => Some (last (m :: ms) m)
       end
  /\ ((forall s, In s steps -> s = [])
      \/ In (snd (process_agent None [] steps)) steps).
Proof.
  cbv zeta. rewrite process_agent_snapshot.
  set (f := fun s : list BaseMessage => negb (Nat.eqb (List.length s) 0)).
  assert (L : forall l : list (list BaseMessage),
             last l [] = match rev l with [] => [] | x :: _ => x end).
  { intros l. destruct (rev l) as [|x r] eqn:E.
    - apply (f_equal (@rev _)) in E. rewrite rev_involutive in E. now subst l.
    - apply (f_equal (@rev _)) in E. rewrite rev_involutive in E. subst l.
      cbn [rev]. now rewrite last_last. }
  rewrite L.
  destruct (rev (filter f steps)) as [|[|m ms] rest] eqn:E; cbn [fst snd].
  - split; [reflexivity|]. split; [reflexivity|]. left.
    intros s Hs. destruct s as [|x xs]; [reflexivity|]. exfalso.
    assert (H : In (x :: xs) (filter f steps)) by (apply filter_In; now split).
    apply in_rev in H. rewrite E in H. destruct H.
  - exfalso.
    assert (H : In [] (filter f steps)) by (apply in_rev; rewrite E; now left).
    apply filter_In in H as [_ H]. discriminate H.
  - split; [reflexivity|]. split; [reflexivity|]. right.
    assert (H : In (m :: ms) (filter f steps)) by (apply in_rev; rewrite E; now left).
    now apply filter_In in H.
Qed.

(** X9. A request whose invocation completes is always answered 200 with
    the resolved thread id; the thread's entry then has the completion time
    as last activity and the final snapshot of the stream as message trace,
    replacing the earlier trace, while its creation time and title are those
    of the arrival; no other thread changes. *)
Theorem chat_completed (repr : value -> string) (agent_db : SQLDatabase)
        (env : Environment) (reg : Registry) (request : ChatRequest)
        (steps : list (list BaseMessage)) :
  Forall (fun c => agent_stream env c = Streamed steps)
         (agent_calls (chat repr agent_db env reg request)) ->
  let tid := str_or (thread_id request) (uuid4 env) in
  let handled := chat repr agent_db env reg request in
  (exists body, answer handled = OK body
                /\ response_thread_id body = tid
                /\ timestamp body = now_for_response env
                /\ step_count (debug_info body)
                   <= List.length (snd (process_agent None [] steps)))
  /\ lookup tid (registry_after handled)
     = Some {| created_at := match lookup tid reg with
                             | Some e => created_at e
                             | None => now_on_arrival env
                             end;
               last_activity := now_on_completion env;
               title := match lookup tid reg with
                        | Some e => title e
                        | None => generate_thread_title (message request)
                        end;
               messages := snd (process_agent None [] steps) |}
  /\ forall other, other <> tid ->
                   lookup other (registry_after handled) = lookup other reg.
Proof.
  rewrite chat_calls. intros H. apply Forall_inv in H.
  cbv zeta. unfold chat. rewrite H.
  destruct (process_agent None [] steps) as [lm all] eqn:P.
  destruct (final_response_returns repr lm all) as [text [id ->]].
  cbn [answer registry_after snd]. split; [|split].
  - eexists. split; [reflexivity|]. cbn [response_thread_id timestamp debug_info].
    split; [reflexivity|]. split; [reflexivity|].
    unfold debug_info_of. cbn [step_count]. unfold turn_of.
    destruct (scan_turn (message request) (rev all)) as [found visited] eqn:S.
    destruct found; [|lia].
    rewrite length_rev.
    assert (G : forall l f v, scan_turn (message request) l = (f, v) ->
                              List.length v <= List.length l).
    { induction l as [|m l IH]; intros f v; cbn [scan_turn].
      - intros E; injection E as <- <-. simpl. lia.
      - destruct (is_class HumanMessage m && _).
        + intros E; injection E as <- <-. simpl. lia.
        + destruct (scan_turn (message request) l) as [f' v'].
          intros E; injection E as <- <-. specialize (IH _ _ eq_refl). simpl. lia. }
    apply G in S. now rewrite length_rev in S.
  - pose proof (arrival_lookup (now_on_arrival env) reg
                               (str_or (thread_id request) (uuid4 env))
                               (message request)) as A.
    rewrite (lookup_after_touch _ _ _ _ _ _ A).
    destruct (lookup _ reg); reflexivity.
  - intros other N. rewrite update_thread_registry_other by exact N.
    destruct (negb (mem _ reg)); now apply update_thread_registry_other.
Qed.

Lemma chat_completed_witness :
  option_map messages
    (lookup "t1" (registry_after
                    (chat Examples.repr Examples.chinook
                          (turn_environment Examples.second_turn)
                          [("t1", Examples.earlier)]
                          (turn_request Examples.second_turn))))
  = Some [Examples.human "im frank harris";
          Examples.ai "Hello Frank! How can I help you today?";
          Examples.human "what was my most cheap purchase?";
          Examples.ai "Please tell me your name."].
Proof.
  destruct (chat_completed Examples.repr Examples.chinook
              (turn_environment Examples.second_turn)
              [("t1", Examples.earlier)]
              (turn_request Examples.second_turn)
              [[Examples.human "im frank harris";
                Examples.ai "Hello Frank! How can I help you today?";
                Examples.human "what was my most cheap purchase?";
                Examples.ai "Please tell me your name."]])
    as [_ [H _]].
  - repeat constructor.
  - exact (f_equal (option_map messages) H).
Defined.



(** X11. Whatever the outcome of a request, [chat] keeps every thread of
    the registry in its place and adds at most the request's own id; a known
    thread keeps its creation time and title, an unknown one is created with
    the arrival time and the title generated from the message. *)
Theorem chat_keeps_threads (repr : value -> string) (agent_db : SQLDatabase)
        (env : Environment) (reg : Registry) (request : ChatRequest) :
  let tid := str_or (thread_id request) (uuid4 env) in
  let after := registry_after (chat repr agent_db env reg request) in
  keys after = (if mem tid reg then keys reg else keys reg ++ [tid])
  /\ exists entry,
       lookup tid after = Some entry
       /\ created_at entry = match lookup tid reg with
                             | Some e => created_at e
                             | None => now_on_arrival env
                             end
       /\ title entry = match lookup tid reg with
                        | Some e => title e
                        | None => generate_thread_title (message request)
                        end.
Proof.
  cbv zeta.
  set (tid := str_or (thread_id request) (uuid4 env)).
  pose proof (arrival_lookup (now_on_arrival env) reg tid (message request)) as A.
  assert (K : keys (if negb (mem tid reg)
                    then update_thread_registry reg (now_on_arrival env) tid
                           (Some (generate_thread_title (message request))) true None
                    else update_thread_registry reg (now_on_arrival env) tid
                           None false None)
              = if mem tid reg then keys reg else keys reg ++ [tid]).
  { destruct (negb (mem tid reg)); apply keys_update. }
  destruct (chat_registry_cases repr agent_db env reg request) as [E|[steps E]];
    cbv zeta in E; fold tid in E; rewrite E.
  - split; [exact K|]. eexists. split; [exact A|].
    destruct (lookup tid reg); split; reflexivity.
  - split.
    + rewrite keys_update.
      assert (M : mem tid (if negb (mem tid reg)
                    then update_thread_registry reg (now_on_arrival env) tid
                           (Some (generate_thread_title (message request))) true None
                    else update_thread_registry reg (now_on_arrival env) tid
                           None false None) = true).
      { unfold mem at 1. now rewrite A. }
      rewrite M. exact K.
    + eexists. split; [apply (lookup_after_touch _ _ _ _ _ _ A)|].
      destruct (lookup tid reg); split; reflexivity.
Qed.

End OutcomeFacts.

(* ================================================================== *)
(** * The turn, its tool calls and its response *)
(* ================================================================== *)

Module TurnFacts.
Import Py Sql Backend Endpoints OutcomeFacts.

Lemma existsb_rev {A : Type} (p : A -> bool) (l : list A) :
  existsb p (rev l) = existsb p l.
Proof.
  induction l as [|x l IH]; [reflexivity|].
  cbn [rev existsb]. rewrite existsb_app, IH. cbn [existsb].
  rewrite orb_false_r. apply orb_comm.
Qed.

(** What the backward scan visits. *)
Lemma scan_turn_visits (text : string) (l : list BaseMessage) :
  match scan_turn text l with
  | (true, visited) =>
      exists pre m post,
        l = pre ++ m :: post /\ visited = pre ++ [m]
        /\ starts_turn text m = true
        /\ existsb (starts_turn text) pre = false
  | (false, visited) => visited = l /\ existsb (starts_turn text) l = false
  end.
Proof.
  induction l as [|m l IH]; cbn [scan_turn]; [now split|].
  fold (starts_turn text m).
  destruct (starts_turn text m) eqn:E.
  - exists [], m, l. repeat split; assumption.
  - destruct (scan_turn text l) as [[|] visited].
    + destruct IH as [pre [m' [post [-> [-> [Hm Hpre]]]]]].
      exists (m :: pre), m', post. cbn [app existsb]. rewrite E.
      repeat split; assumption.
    + destruct IH as [-> Hl]. cbn [existsb]. now rewrite E.
Qed.

(** X12. The messages counted as the current turn are the end of the
    trace: they start at the most recent [HumanMessage] whose content is the
    submitted text, and hold no other such message; when the trace has no
    such message the turn is the whole trace. *)
Theorem turn_of_latest_occurrence (text : string) (all_messages : list BaseMessage) :
  exists earlier,
    all_messages = earlier ++ turn_of text all_messages
    /\ if existsb (starts_turn text) all_messages
       then exists m rest,
              turn_of text all_messages = m :: rest
              /\ starts_turn text m = true
              /\ existsb (starts_turn text) rest = false
       else earlier = [].
Proof.
  unfold turn_of.
  pose proof (scan_turn_visits text (rev all_messages)) as H.
  destruct (scan_turn text (rev all_messages)) as [[|] visited].
  - destruct H as [pre [m [post [E [-> [Hm Hpre]]]]]].
    apply (f_equal (@rev _)) in E. rewrite rev_involutive in E.
    rewrite rev_app_distr in E. cbn [rev] in E. rewrite <- app_assoc in E.
    cbn [app] in E.
    exists (rev post). rewrite rev_app_distr. cbn [rev app].
    split; [exact E|].
    assert (X : existsb (starts_turn text) all_messages = true).
    { rewrite E, existsb_app. cbn [existsb]. rewrite Hm. apply orb_true_r. }
    rewrite X. exists m, (rev pre). repeat split; [exact Hm|].
    now rewrite existsb_rev.
  - destruct H as [_ H]. rewrite existsb_rev in H. rewrite H.
    exists []. now split.
Qed.

(** ** The map of tool calls *)

Lemma map_store_keys (k : string) (v : ToolCallInfo) (m : tool_calls_map) :
  map fst (map_store k v m)
  = if existsb (String.eqb k) (map fst m) then map fst m else map fst m ++ [k].
Proof.
  induction m as [|[k' v'] m IH]; cbn [map_store map fst existsb]; [reflexivity|].
  rewrite (String.eqb_sym k k').
  destruct (String.eqb k' k); cbn [map fst orb]; [reflexivity|].
  rewrite IH. now destruct (existsb (String.eqb k) (map fst m)).
Qed.

Lemma map_store_In (k : string) (v : ToolCallInfo) (m : tool_calls_map)
      (k' : string) (v' : ToolCallInfo) :
  In (k', v') (map_store k v m) -> (k' = k /\ v' = v) \/ In (k', v') m.
Proof.
  induction m as [|[k0 v0] m IH]; cbn [map_store].
  - intros [E|[]]. injection E as <- <-. now left.
  - destruct (String.eqb_spec k0 k) as [->|N].
    + intros [E|H]; [injection E as <- <-; now left | right; now right].
    + intros [E|H]; [right; now left|].
      destruct (IH H) as [?|?]; [now left | right; now right].
Qed.

Lemma map_set_output_keys (k out : string) (m : tool_calls_map) :
  map fst (map_set_output k out m) = map fst m.
Proof.
  induction m as [|[k' v'] m IH]; cbn [map_set_output map fst]; [reflexivity|].
  destruct (String.eqb k' k); cbn [map fst]; [reflexivity | now rewrite IH].
Qed.

Lemma map_set_output_In (k out : string) (m : tool_calls_map)
      (k' : string) (v' : ToolCallInfo) :
  In (k', v') (map_set_output k out m) ->
  In (k', v') m
  \/ (k' = k /\ exists v0, In (k, v0) m
                          /\ info_tool_call_id v' = info_tool_call_id v0
                          /\ output v' = Some out).
Proof.
  induction m as [|[k0 v0] m IH]; cbn [map_set_output]; [intros []|].
  destruct (String.eqb_spec k0 k) as [->|N].
  - intros [E|H]; [|left; now right].
    injection E as <- <-. right. split; [reflexivity|].
    exists v0. repeat split. now left.
  - intros [E|H]; [left; now left|].
    destruct (IH H) as [?|[-> [v1 [? ?]]]]; [left; now right|].
    right. split; [reflexivity|]. exists v1. split; [now right | assumption].
Qed.

Lemma NoDup_snoc_fresh (k : string) (ks : list string) :
  NoDup ks -> existsb (String.eqb k) ks = false -> NoDup (ks ++ [k]).
Proof.
  intros ND F. apply NoDup_app; [exact ND | repeat constructor; intros [] |].
  intros x Hx [<-|[]].
  assert (T : existsb (String.eqb k) ks = true).
  { apply existsb_exists. exists k. split; [exact Hx | apply String.eqb_refl]. }
  congruence.
Qed.

Section Rendering.

Variable repr : value -> string.
Variable turn : list BaseMessage.

Local Abbreviation wf := (well_formed repr turn).

Lemma wf_record_call (msg : BaseMessage) (tc : ToolCall) (m : tool_calls_map) :
  In msg turn -> is_class AIMessage msg = true -> In tc (msg_tool_calls msg) ->
  wf m -> wf (record_call m tc).
Proof.
  intros Hmsg Hai Htc [ND W]. unfold record_call.
  destruct (call_id tc) as [id|] eqn:Eid; [|now split].
  destruct (truthy id) eqn:Tid; [|now split].
  split.
  - rewrite map_store_keys.
    destruct (existsb (String.eqb id) (map fst m)) eqn:F; [exact ND|].
    now apply NoDup_snoc_fresh.
  - intros k v H. apply map_store_In in H as [[-> ->]|H]; [|now apply W].
    cbn [info_tool_call_id output]. split; [reflexivity|]. split.
    + exists msg, tc. repeat split; assumption.
    + intros out E. discriminate E.
Qed.

Lemma wf_record_calls (msg : BaseMessage) (tcs : list ToolCall) :
  In msg turn -> is_class AIMessage msg = true ->
  (forall tc, In tc tcs -> In tc (msg_tool_calls msg)) ->
  forall m, wf m -> wf (fold_left record_call tcs m).
Proof.
  intros Hmsg Hai. induction tcs as [|tc tcs IH]; intros Hin m Hm; [exact Hm|].
  cbn [fold_left]. apply IH.
  - intros tc' H. apply Hin. now right.
  - apply (wf_record_call msg); try assumption. apply Hin. now left.
Qed.

Lemma wf_set_output (msg : BaseMessage) (m : tool_calls_map) :
  In msg turn -> is_class ToolMessage msg = true ->
  wf m ->
  wf (map_set_output (msg_tool_call_id msg) (str repr (msg_content msg)) m).
Proof.
  intros Hmsg Htool [ND W]. split; [now rewrite map_set_output_keys|].
  intros k v H. apply map_set_output_In in H as [H|[-> [v0 [H0 [Eid Eout]]]]];
    [now apply W|].
  destruct (W _ _ H0) as [Wid [Wcall _]].
  split; [congruence|]. split; [exact Wcall|].
  intros out E. rewrite Eout in E. injection E as <-.
  exists msg. repeat split; assumption.
Qed.

Lemma wf_record_message (msg : BaseMessage) (m : tool_calls_map) :
  In msg turn -> wf m -> wf (record_message repr m msg).
Proof.
  intros Hmsg Hm. unfold record_message.
  assert (H1 : wf (if is_class AIMessage msg
                   then fold_left record_call (msg_tool_calls msg) m else m)).
  { destruct (is_class AIMessage msg) eqn:E; [|exact Hm].
    now apply (wf_record_calls msg). }
  destruct (is_class ToolMessage msg) eqn:E; [|exact H1].
  now apply wf_set_output.
Qed.

Lemma wf_fold (rest : list BaseMessage) :
  (forall msg, In msg rest -> In msg turn) ->
  forall m, wf m -> wf (fold_left (record_message repr) rest m).
Proof.
  induction rest as [|msg rest IH]; intros Hin m Hm; [exact Hm|].
  cbn [fold_left]. apply IH.
  - intros x H. apply Hin. now right.
  - apply wf_record_message; [apply Hin; now left | exact Hm].
Qed.

End Rendering.

(** X13. The tool calls reported for a turn have pairwise distinct ids;
    each comes from a tool call with a non-empty id of an [AIMessage] of the
    turn; an output, when reported, is the content of a [ToolMessage] of the
    turn with that id, so a tool result that matches no recorded call adds
    nothing; the step count is the number of messages of the turn. *)
Theorem debug_info_tool_calls (repr : value -> string) (turn : list BaseMessage) :
  let calls := tool_calls (debug_info_of repr turn) in
  NoDup (map info_tool_call_id calls)
  /\ (forall info, In info calls ->
        (exists msg tc, In msg turn /\ is_class AIMessage msg = true
                        /\ In tc (msg_tool_calls msg)
                        /\ recordable tc (info_tool_call_id info))
        /\ (forall out, output info = Some out ->
              exists msg, In msg turn /\ is_class ToolMessage msg = true
                          /\ msg_tool_call_id msg = info_tool_call_id info
                          /\ out = str repr (msg_content msg)))
  /\ step_count (debug_info_of repr turn) = List.length turn.
Proof.
  cbv zeta. unfold debug_info_of. cbn [tool_calls step_count].
  assert (W : well_formed repr turn (fold_left (record_message repr) turn [])).
  { apply wf_fold; [auto|]. split; [constructor | intros k v []]. }
  destruct W as [ND W].
  set (m := fold_left (record_message repr) turn []) in *.
  assert (K : map info_tool_call_id (map snd m) = map fst m).
  { rewrite map_map. apply map_ext_in. intros [k v] H. now apply W. }
  split; [now rewrite K|]. split; [|reflexivity].
  intros info H. apply in_map_iff in H as [[k v] [<- H]].
  destruct (W _ _ H) as [<- [Wcall Wout]]. now split.
Qed.

(** X14. The text answered to the user is extracted from the last
    [AIMessage] of the trace, whatever follows it, and carries that
    message's id. *)
Theorem final_response_last_ai
        (repr : value -> string) (last_message : BaseMessage)
        (before : list BaseMessage) (m : BaseMessage) (after : list BaseMessage) :
  is_class AIMessage m = true ->
  existsb (is_class AIMessage) after = false ->
  exists text,
    extract_message_content repr (Some (as_object m)) = Returned text
    /\ final_response repr (Some last_message) (before ++ m :: after)
       = Returned (text, msg_id m).
Proof.
  intros Hm Hafter.
  destruct (extract_returns repr (Some (as_object m))) as [text E].
  exists text. split; [exact E|].
  unfold final_response.
  assert (F : find (is_class AIMessage) (rev (before ++ m :: after)) = Some m).
  { rewrite rev_app_distr. cbn [rev]. rewrite <- app_assoc. cbn [app].
    rewrite <- existsb_rev in Hafter.
    induction (rev after) as [|x l IH]; cbn [app find].
    - now rewrite Hm.
    - cbn [existsb] in Hafter. apply orb_false_iff in Hafter as [Hx Hl].
      rewrite Hx. now apply IH. }
  rewrite F, E. reflexivity.
Qed.

Lemma final_response_last_ai_witness :
  exists text,
    extract_message_content Examples.repr
      (Some (as_object (Examples.ai "Hello Frank!"))) = Returned text
    /\ final_response Examples.repr (Some (Examples.human "thanks"))
         ([Examples.human "im frank harris"]
          ++ Examples.ai "Hello Frank!" :: [Examples.human "thanks"])
       = Returned (text, Some "run-1").
Proof.
  apply (final_response_last_ai Examples.repr (Examples.human "thanks")
           [Examples.human "im frank harris"] (Examples.ai "Hello Frank!")
           [Examples.human "thanks"]); reflexivity.
Defined.

End TurnFacts.

(* ================================================================== *)
(** * The message history of a thread *)
(* ================================================================== *)

Module HistoryFacts.
Import Py Sql Backend Endpoints RegistryFacts ChatFacts DictFacts OutcomeFacts
       ListingFacts PagingFacts.

Section Rendering.

Variable repr : value -> string.

Lemma serialize_message_returns (now : datetime) (m : BaseMessage) :
  exists text,
    extract_message_content repr (Some (as_object m)) = Returned text
    /\ serialize_message repr now m
       = Returned {| model_id := msg_id m;
                     role := match msg_class m with
                             | HumanMessage => "user"
                             | AIMessage => "assistant"
                             | ToolMessage => "tool"
                             | SystemMessage => "system"
                             end;
                     model_content := text;
                     model_timestamp := now |}.
Proof.
  destruct (extract_returns repr (Some (as_object m))) as [text E].
  exists text. split; [exact E|].
  unfold serialize_message. rewrite E. cbn [bind].
  unfold is_class. destruct (msg_class m); reflexivity.
Qed.

Lemma serialize_from_returns (clock : nat -> datetime) (msgs : list BaseMessage) :
  forall i,
  exists ms,
    serialize_from repr clock i msgs = Returned ms
    /\ List.length ms = List.length msgs
    /\ map model_id ms = map msg_id msgs
    /\ map role ms = map (fun m => match msg_class m with
                                   | HumanMessage => "user"
                                   | AIMessage => "assistant"
                                   | ToolMessage => "tool"
                                   | SystemMessage => "system"
                                   end) msgs
    /\ map model_timestamp ms = map clock (seq i (List.length msgs)).
Proof.
  induction msgs as [|m msgs IH]; intros i.
  - exists []. repeat split.
  - destruct (serialize_message_returns (clock i) m) as [text [_ E]].
    destruct (IH (S i)) as [ms [E' [Hl [Hid [Hrole Hts]]]]].
    eexists. cbn [serialize_from]. rewrite E, E'. cbn [bind].
    split; [reflexivity|].
    cbn [List.length map seq model_id role model_timestamp].
    now rewrite Hl, Hid, Hrole, Hts.
Qed.

Lemma slice_map {A B : Type} (f : A -> B) (a b : nat) (xs : list A) :
  map f (slice a b xs) = slice a b (map f xs).
Proof. unfold slice. now rewrite skipn_map, firstn_map. Qed.

Lemma slice_all {A : Type} (L : nat) (xs : list A) :
  List.length xs <= L -> slice 0 (0 + L) xs = xs.
Proof.
  intros H. unfold slice. replace (0 + L - 0) with L by lia.
  cbn [skipn]. now apply firstn_all2.
Qed.

Variable agent_db : SQLDatabase.

(** The trace a completed request leaves under its thread id. *)
Lemma completed_trace (env : Environment) (reg : Registry) (request : ChatRequest)
      (steps : list (list BaseMessage)) :
  Forall (fun c => agent_stream env c = Streamed steps)
         (agent_calls (chat repr agent_db env reg request)) ->
  get_thread_messages_from_registry
    (registry_after (chat repr agent_db env reg request))
    (str_or (thread_id request) (uuid4 env))
  = snd (process_agent None [] steps).
Proof.
  rewrite chat_calls. intros H. apply Forall_inv in H.
  unfold chat. rewrite H.
  destruct (process_agent None [] steps) as [lm all] eqn:P.
  destruct (final_response_returns repr lm all) as [text [id ->]].
  cbn [registry_after snd].
  pose proof (arrival_lookup (now_on_arrival env) reg
                             (str_or (thread_id request) (uuid4 env))
                             (message request)) as A.
  unfold get_thread_messages_from_registry.
  now rewrite (lookup_after_touch _ _ _ _ _ _ A).
Qed.

End Rendering.

(** X15. [GET /threads/{id}/messages] never fails: it reports as total the
    number of stored messages of the thread (0 for an unknown thread) and
    returns the slice [offset:offset+limit] of them in stored order, each
    with its own id and with the role user, assistant, tool or system of its
    class. *)
Theorem get_thread_messages_page
        (repr : value -> string) (reg : Registry) (clock : nat -> datetime)
        (tid : string) (L O : nat) :
  let stored := get_thread_messages_from_registry reg tid in
  exists resp,
    get_thread_messages repr reg clock tid L O = Returned resp
    /\ page_thread_id resp = tid
    /\ page_total resp = List.length stored
    /\ List.length (page resp) = Nat.min L (List.length stored - O)
    /\ map model_id (page resp) = slice O (O + L) (map msg_id stored)
    /\ map role (page resp)
       = slice O (O + L)
               (map (fun m => match msg_class m with
                              | HumanMessage => "user"
                              | AIMessage => "assistant"
                              | ToolMessage => "tool"
                              | SystemMessage => "system"
                              end) stored).
Proof.
  cbv zeta. unfold get_thread_messages.
  destruct (get_thread_messages_from_registry reg tid) as [|m ms] eqn:S.
  - eexists. split; [reflexivity|]. cbn [page page_thread_id page_total List.length map].
    unfold slice. rewrite !skipn_nil, !firstn_nil.
    repeat split. now rewrite Nat.min_0_r.
  - destruct (serialize_from_returns repr clock (m :: ms) 0)
      as [out [E [Hl [Hid [Hrole _]]]]].
    rewrite E. cbn [bind]. eexists. split; [reflexivity|].
    cbn [page page_thread_id page_total].
    rewrite !slice_map, Hid, Hrole, length_slice, Hl.
    repeat split.
Qed.

(** X16. Round trip: after a request to [POST /chat] has completed, the
    history of its thread read with offset 0 and a limit that covers it is
    the serialization of the final snapshot of the stream, message by
    message in the order produced. *)
Theorem chat_then_history
        (repr : value -> string) (agent_db : SQLDatabase)
        (env : Environment) (reg : Registry) (request : ChatRequest)
        (steps : list (list BaseMessage)) (clock : nat -> datetime) (L : nat) :
  Forall (fun c => agent_stream env c = Streamed steps)
         (agent_calls (chat repr agent_db env reg request)) ->
  List.length (snd (process_agent None [] steps)) <= L ->
  let tid := str_or (thread_id request) (uuid4 env) in
  let trace := snd (process_agent None [] steps) in
  exists resp,
    get_thread_messages repr (registry_after (chat repr agent_db env reg request))
                        clock tid L 0
    = Returned resp
    /\ serialize_from repr clock 0 trace = Returned (page resp)
    /\ page_total resp = List.length trace
    /\ map model_id (page resp) = map msg_id trace.
Proof.
  intros H HL. cbv zeta. unfold get_thread_messages.
  rewrite (completed_trace repr agent_db env reg request steps H).
  destruct (snd (process_agent None [] steps)) as [|m ms] eqn:T.
  - eexists. repeat split.
  - destruct (serialize_from_returns repr clock (m :: ms) 0)
      as [out [E [Hl [Hid _]]]].
    rewrite E. cbn [bind]. eexists. split; [reflexivity|].
    cbn [page page_total].
    rewrite slice_all by (rewrite Hl; exact HL).
    repeat split; assumption.
Qed.

Lemma chat_then_history_witness :
  exists resp,
    get_thread_messages Examples.repr
      (registry_after (chat Examples.repr Examples.chinook
                            (turn_environment Examples.first_turn) []
                            (turn_request Examples.first_turn)))
      (fun i => Z.of_nat (30 + i)) "t1" 50 0
    = Returned resp
    /\ map role (page resp) = ["user"; "assistant"].
Proof.
  destruct (chat_then_history Examples.repr Examples.chinook
              (turn_environment Examples.first_turn) []
              (turn_request Examples.first_turn)
              [[Examples.human "im frank harris";
                Examples.ai "Hello Frank! How can I help you today?"]]
              (fun i => Z.of_nat (30 + i)) 50)
    as [resp [E [S _]]].
  - repeat constructor.
  - simpl. lia.
  - exists resp. split; [exact E|].
    apply (f_equal (fun o => match o with Returned x => x | Raised _ => [] end)) in S.
    cbv beta iota in S. rewrite <- S. reflexivity.
Defined.

End HistoryFacts.

(* ================================================================== *)
(** * The name tool and the open gate *)
(* ================================================================== *)

Module NameFacts.
Import Py Sql Agent AgentFacts.


End NameFacts.

(* ================================================================== *)
(** * Once the name is validated *)
(* ================================================================== *)

Module OpenGateFacts.
Import Py Sql Agent AgentFacts.




End OpenGateFacts.

(* ================================================================== *)
(** * Letter case *)
(* ================================================================== *)

Module CaseFacts.
Import Py Sql.







End CaseFacts.

(* ================================================================== *)
(** * Titles of titles, and list contents *)
(* ================================================================== *)

Module MoreTitleFacts.
Import Py Backend Described PyFacts TitleFacts CaseFacts.










End MoreTitleFacts.

Module ContentFacts.
Import Py Backend ExtractFacts.

Lemma dict_getitem_get (key : string) (d : list (string * value)) :
  dict_contains key d = true -> dict_getitem key d = Returned (dict_get key d).
Proof.
  intros H. unfold dict_get.
  now destruct (dict_getitem_present key d H) as [v ->].
Qed.

(** X21. For a content that is a list, the text extracted is the texts of
    its items joined by single spaces, in order: a text item gives itself, a
    dict with a "text" key the rendering of that entry, a dict without one
    the rendering of the whole dict (its "type" does not matter), any other
    item its rendering; the empty list gives "No response generated". *)
Theorem extract_list_content (repr : value -> string) (items : list value) :
  extract_message_content repr (Some (Attr (VList items)))
  = Returned
      match items with
      | [] => "No response generated"
      | _ => join " "
               (map (fun item =>
                       match item with
                       | VStr s => s
                       | VDict d => if dict_contains "text" d
                                    then str repr (dict_get "text" d)
                                    else repr item
                       | other => repr other
                       end) items)
      end.
Proof.
  set (text_of := fun item : value =>
                    match item with
                    | VStr s => s
                    | VDict d => if dict_contains "text" d
                                 then str repr (dict_get "text" d)
                                 else repr item
                    | other => repr other
                    end).
  assert (I : forall item, item_text repr item = Returned (text_of item)).
  { intros [| b | z | s | l | d]; try reflexivity.
    cbn [item_text text_of]. destruct (dict_contains "text" d) eqn:E.
    - now rewrite (dict_getitem_get _ _ E).
    - now rewrite andb_false_r. }
  assert (C : forall l, collect_text_parts repr l = Returned (map text_of l)).
  { induction l as [|x l IH]; [reflexivity|].
    cbn [collect_text_parts map]. now rewrite I, IH. }
  cbn [extract_message_content getattr_content]. rewrite C. cbn [bind].
  now destruct items.
Qed.

End ContentFacts.
